(** * The order state machine: a finite-state-machine engine and its adapter

    A shallow embedding of
      - [packages/core/src/common/finite-state-machine.ts] (class [FSM]),
      - [packages/core/src/service/helpers/order-state-machine/order-state-machine.ts]
        (class [OrderStateMachine]),
      - the [OrderProcessStrategy] interface,
    and the properties their specification states about them.

    JavaScript values are modelled as follows.
      - A state name is a [string].
      - An object used as a dictionary is a [JSObject]: its own properties
        in insertion order, which is the order [Object.keys] lists them in
        (for keys that are not array indices; state names are not).
      - A transition graph [{ S: { to: [...] }, ... }] is an object whose
        properties hold REFERENCES to entry objects [{ to: [...] }]; both
        live in a [Heap], so that two graphs can share an entry, as the
        source makes them do.
      - A property read goes through the prototype chain, which ends in
        [Object.prototype].
      - [async] code that is awaited runs to completion where it is called;
        a promise nobody awaits is kept in the store as a floating task.
      - A raised exception is the [Throw] outcome of the monad [M]; it
        carries the store as it was when the exception was raised. *)

From Stdlib Require Import ZArith String List.
From stdpp Require Import gmap strings list fin_maps.

Local Open Scope Z_scope.
Local Open Scope string_scope.
Local Open Scope list_scope.

(** ** Exceptions and the state-and-exception monad *)

Inductive Exn : Type :=
| TypeError
| IllegalOperationError (message : string) (fromState toState : string)
| ExternalError (what : string).

Inductive Res (St A : Type) : Type :=
| Ok (a : A) (s : St)
| Throw (e : Exn) (s : St).
Arguments Ok {St A} a s.
Arguments Throw {St A} e s.

Definition M (St A : Type) : Type := St -> Res St A.

Definition ret {St A} (a : A) : M St A := fun s => Ok a s.
Definition throw {St A} (e : Exn) : M St A := fun s => Throw e s.
Definition bind {St A B} (m : M St A) (k : A -> M St B) : M St B :=
  fun s => match m s with
           | Ok a s' => k a s'
           | Throw e s' => Throw e s'
           end.
Definition gets {St A} (f : St -> A) : M St A := fun s => Ok (f s) s.
Definition modify {St} (f : St -> St) : M St unit := fun s => Ok tt (f s).

Declare Scope monad_scope.
Delimit Scope monad_scope with monad.
Notation "x <- c1 ;; c2" := (bind c1 (fun x => c2))
  (at level 100, c1 at next level, right associativity) : monad_scope.
Notation "c1 ;; c2" := (bind c1 (fun _ => c2))
  (at level 100, right associativity) : monad_scope.
Local Open Scope monad_scope.

(** [for (const x of l) body] *)
Fixpoint for_of {St A} (l : list A) (body : A -> M St unit) : M St unit :=
  match l with
  | [] => ret tt
  | x :: l' => body x ;; for_of l' body
  end.

(** The store a computation ended in, whether it returned or raised. *)
Definition final {St A} (r : Res St A) : St :=
  match r with Ok _ s => s | Throw _ s => s end.

Definition returned {St A} (r : Res St A) : bool :=
  match r with Ok _ _ => true | Throw _ _ => false end.

(** Runs [m] on the component of the store that [get] selects. *)
Definition zoom {St T A} (get : St -> T) (set : T -> St -> St) (m : M T A)
  : M St A :=
  fun s => match m (get s) with
           | Ok a t => Ok a (set t s)
           | Throw e t => Throw e (set t s)
           end.

(** ** JavaScript objects and the heap of transition graphs *)

Definition loc : Type := nat.

(** Own properties, in insertion order. *)
Definition JSObject (V : Type) : Type := list (string * V).

Fixpoint obj_get {V} (k : string) (o : JSObject V) : option V :=
  match o with
  | [] => None
  | (k', v) :: o' => if decide (k' = k) then Some v else obj_get k o'
  end.

(** [o[k] = v]: overwrites the property where it stands, or adds it last. *)
Fixpoint obj_set {V} (k : string) (v : V) (o : JSObject V) : JSObject V :=
  match o with
  | [] => [(k, v)]
  | (k', v') :: o' =>
      if decide (k' = k) then (k, v) :: o' else (k', v') :: obj_set k v o'
  end.

(** [Object.keys(o)] *)
Definition keys {V} (o : JSObject V) : list string := map fst o.

(** [o.hasOwnProperty(k)] *)
Definition hasOwnProperty {V} (k : string) (o : JSObject V) : bool :=
  match obj_get k o with Some _ => true | None => false end.

(** The names under which [Object.prototype] has a property. Every graph
    object is an ordinary object: what it does not have itself it inherits
    from [Object.prototype], which is taken to be as the language defines
    it. *)
Definition Object_prototype : list string :=
  ["constructor"; "hasOwnProperty"; "isPrototypeOf"; "propertyIsEnumerable";
   "toLocaleString"; "toString"; "valueOf"; "__proto__";
   "__defineGetter__"; "__defineSetter__"; "__lookupGetter__"; "__lookupSetter__"].

(** [graphs] holds the own properties of the [Transitions] objects,
    [entries] the [to] array of each entry object [{ to: T[] }]. Arrays are
    never updated in place by the source ([concat] builds a new one), so
    they are values. [protos] holds the prototype of a graph object where
    an assignment to [__proto__] has made an entry object its prototype;
    the prototype of every other graph object, and of every entry object,
    is [Object.prototype]. *)
Record Heap : Type := {
  graphs : gmap loc (JSObject loc);
  entries : gmap loc (list string);
  protos : gmap loc loc;
}.

(** What a property read [g[k]] on a graph object gives. *)
Inductive Property : Type :=
| EntryObject (e : loc)
| OtherValue
| NoProperty.

(** [h.g[k]]: an own property holds an entry object. Failing that the
    prototype chain is searched. A prototype that is an entry object has
    the one own property [to], an array; the getter [__proto__] gives the
    prototype itself; the other members of [Object.prototype] are
    functions. Neither an array nor a function nor [Object.prototype] has
    a property [to]: they are [OtherValue]. [NoProperty] is [undefined]. *)
Definition get_property (h : Heap) (g : loc) (k : string) : Property :=
  match graphs h !! g with
  | None => NoProperty
  | Some o =>
      match obj_get k o with
      | Some e => EntryObject e
      | None =>
          match protos h !! g with
          | Some pe =>
              if decide (k = "__proto__") then EntryObject pe
              else if decide (k = "to") then OtherValue
              else if decide (k ∈ Object_prototype) then OtherValue
              else NoProperty
          | None =>
              if decide (k ∈ Object_prototype) then OtherValue else NoProperty
          end
      end
  end.

(** What [h.g[k].to] evaluates to: an array, [undefined], or a
    [TypeError] because [g[k]] is [undefined]. *)
Inductive To : Type :=
| ToArray (l : list string)
| ToUndefined
| ToTypeError.

Definition read_to (h : Heap) (g : loc) (k : string) : To :=
  match get_property h g k with
  | EntryObject e =>
      match entries h !! e with
      | Some l => ToArray l
      | None => ToTypeError
      end
  | OtherValue => ToUndefined
  | NoProperty => ToTypeError
  end.

(** The destination list [h.g[k].to], where that is an array. *)
Definition graph_to (h : Heap) (g : loc) (k : string) : option (list string) :=
  match read_to h g k with
  | ToArray l => Some l
  | ToUndefined | ToTypeError => None
  end.

(** [l.indexOf(x)] for an array of strings: the first index holding [x],
    or [-1]. *)
Fixpoint indexOf_from (i : Z) (x : string) (l : list string) : Z :=
  match l with
  | [] => -1
  | y :: l' => if decide (y = x) then i else indexOf_from (i + 1) x l'
  end.
Definition indexOf (x : string) (l : list string) : Z := indexOf_from 0 x l.

(** What a guard resolves to: [boolean | string | void]. *)
Inductive Resolved : Type :=
| RBool (b : bool)
| RString (s : string)
| RVoid.

(** ** [finite-state-machine.ts] *)

Module FiniteStateMachine.
Section FSM.
(** [St] is what the callbacks of a configuration can reach, [U] the
    events they report, [Data] the payload of a transition. *)
Context {St U Data : Type}.

(** A callback, awaited by the engine: it acts on [St] and reports
    events of its own; it reaches neither the engine's private fields nor
    the engine's part of the history. *)
Definition Callback (R : Type) : Type := M (list U * St) R.

Record StateMachineConfig : Type := {
  transitions : loc;
  onTransitionStart : option (string -> string -> Data -> Callback Resolved);
  onTransitionEnd : option (string -> string -> Data -> Callback unit);
  onError : option (string -> string -> option string -> Callback unit);
}.

(** The history is a ghost record of what happened, in order: which
    callbacks of the configuration the engine invoked and with what
    arguments, the assignment to [_currentState] (with the value
    [_currentState] had when [onTransitionEnd] was invoked), and the
    events reported by the callbacks themselves. *)
Inductive Event : Type :=
| EvOnTransitionStart (fromState toState : string)
| EvCommit (fromState toState : string)
| EvOnTransitionEnd (fromState toState current : string)
| EvOnError (fromState toState : string) (message : option string)
| EvUser (u : U).

Record World : Type := {
  heap : Heap;
  history : list Event;
  user : St;
}.

Record FSM : Type := {
  config : StateMachineConfig;
  _initialState : string;
  _currentState : string;
}.

(** Code of the engine runs on the instance ([this]) and the world. *)
Definition Engine (A : Type) : Type := M (FSM * World) A.

(** [constructor(config, initialState)] *)
Definition new_FSM (cfg : StateMachineConfig) (initialState : string) : FSM :=
  {| config := cfg;
     _initialState := initialState;
     _currentState := initialState |}.

Definition initialState (this : FSM) : string := _initialState this.
Definition currentState (this : FSM) : string := _currentState this.

Definition this_ : Engine FSM := gets fst.

Definition set_currentState (state : string) : Engine unit :=
  modify (fun '(this, w) =>
    ({| config := config this;
        _initialState := _initialState this;
        _currentState := state |}, w)).

Definition record (ev : Event) : Engine unit :=
  modify (fun '(this, w) =>
    (this, {| heap := heap w;
              history := history w ++ [ev];
              user := user w |})).

(** Invokes a callback and awaits it. *)
Definition call {R} (c : Callback R) : Engine R :=
  fun '(this, w) =>
    let world_of '(us, s) :=
      {| heap := heap w;
         history := history w ++ map EvUser us;
         user := s |} in
    match c ([], user w) with
    | Ok r p => Ok r (this, world_of p)
    | Throw e p => Throw e (this, world_of p)
    end.

(** [getNextStates()]: what [transitions[currentState].to] is, an array
    ([Some]) or [undefined] ([None]). *)
Definition getNextStates : Engine (option (list string)) :=
  fun '(this, w) =>
    match read_to (heap w) (transitions (config this)) (_currentState this) with
    | ToArray to => Ok (Some to) (this, w)
    | ToUndefined => Ok None (this, w)
    | ToTypeError => Throw TypeError (this, w)
    end.

(** [canTransitionTo(state)]: [indexOf] is called on
    [transitions[currentState].to], which raises a [TypeError] unless that
    is an array. *)
Definition canTransitionTo (state : string) : Engine bool :=
  fun '(this, w) =>
    match graph_to (heap w) (transitions (config this)) (_currentState this) with
    | Some to => Ok (-1 <? indexOf state to)%Z (this, w)
    | None => Throw TypeError (this, w)
    end.

(** [private async onError(fromState, toState, message?)] *)
Definition onError_ (fromState toState : string) (message : option string)
  : Engine unit :=
  this <- this_ ;;
  match onError (config this) with
  | Some handler =>
      record (EvOnError fromState toState message) ;;
      call (handler fromState toState message)
  | None => ret tt
  end.

(** The part of [transitionTo] after the guard: the commit and the
    end callback. *)
Definition commit (state : string) (data : Data) : Engine unit :=
  this <- this_ ;;
  let fromState := _currentState this in
  set_currentState state ;;
  record (EvCommit fromState state) ;;
  match onTransitionEnd (config this) with
  | Some handler =>
      this' <- this_ ;;
      record (EvOnTransitionEnd fromState state (_currentState this')) ;;
      call (handler fromState state data)
  | None => ret tt
  end.

(** [async transitionTo(state, data)]; a [return] of the source is a
    branch that does not go on to [commit]. *)
Definition transitionTo (state : string) (data : Data) : Engine unit :=
  can <- canTransitionTo state ;;
  if (can : bool) then
    this <- this_ ;;
    match onTransitionStart (config this) with
    | Some guard =>
        record (EvOnTransitionStart (_currentState this) state) ;;
        canTransition <- call (guard (_currentState this) state data) ;;
        match canTransition with
        | RBool false =>
            this <- this_ ;;
            onError_ (_currentState this) state None
        | RString message =>
            this <- this_ ;;
            onError_ (_currentState this) state (Some message)
        | _ => commit state data
        end
    | None => commit state data
    end
  else
    this <- this_ ;;
    onError_ (_currentState this) state None.

(** [jumpTo(state)] *)
Definition jumpTo (state : string) : Engine unit :=
  set_currentState state.

End FSM.
Arguments StateMachineConfig : clear implicits.
Arguments Event : clear implicits.
Arguments World : clear implicits.
Arguments FSM : clear implicits.
Arguments Engine : clear implicits.
End FiniteStateMachine.

(** ** The [OrderProcessStrategy] interface

    [configService.orderOptions.process] offers the same four members and
    is read through the same record. A hook that is handed the transition
    data reaches the order through it (the order is passed by reference)
    and, beyond it, the outside world [Ext]; an error hook is handed plain
    values only. [onTransitionEnd] and [onTransitionError] are declared
    [void | Promise<void>]: what a call hands back is [Returned].

    [PromiseOf rest] is a promise that is pending when the call hands it
    back; [rest] is what the hook still does once the event it awaits has
    come. Awaited, the promise is waited for and [rest] runs then and
    there. Not awaited, it is taken to stay pending for as long as the
    caller's transition is under way: the event comes later. A promise
    that nobody awaits and that resumes while the transition is still
    under way (a hook that awaits a value that is already there) is
    outside what is modelled, as is any other code that runs beside the
    transition: what is proved about the stores between the hooks and the
    services is stated for runs in which no promise was dropped. *)

Inductive Returned (St : Type) : Type :=
| Void
| PromiseOf (rest : M St unit).
Arguments Void {St}.
Arguments PromiseOf {St} rest.

(** [await r] *)
Definition await {St} (r : Returned St) : M St unit :=
  match r with
  | Void => ret tt
  | PromiseOf rest => rest
  end.

Module OrderProcessStrategy.
Section Interface.
Context {Order Ext Data : Type}.

Record t : Type := {
  transitions : option loc;
  onTransitionStart :
    option (string -> string -> Data -> M (Order * Ext) Resolved);
  onTransitionEnd :
    option (string -> string -> Data -> M (Order * Ext) (Returned (Order * Ext)));
  onTransitionError :
    option (string -> string -> option string -> M Ext (Returned Ext));
}.
End Interface.
Arguments t : clear implicits.
End OrderProcessStrategy.

(** ** [order-state-machine.ts] *)

Module OrderStateMachine.
Section Adapter.
(** [Ext] is the state of everything outside the adapter (the database
    behind the services, the plugins, the clock); a [RequestContext] is
    opaque to the adapter. *)
Context {Ext RequestContext : Type}.

(** [new Date()] *)
Variable now : Ext -> nat.

(** The base graph, a module-level constant of [./order-state]: the
    adapter holds a reference to it. *)
Variable orderStateTransitions : loc.

(** The fields of the [Order] entity the adapter reads or writes. *)
Record Order : Type := {
  id : nat;
  state : string;
  lines : list nat;
  customer : option nat;
  active : bool;
  orderPlacedAt : option nat;
}.

(** [OrderTransitionData] is [{ ctx, order }]; [order] is a reference to
    the order of the store. *)
Record OrderTransitionData : Type := { ctx : RequestContext }.

Definition Strategy : Type :=
  OrderProcessStrategy.t Order Ext OrderTransitionData.

Inductive HistoryEntryType : Type := ORDER_STATE_TRANSITION.

Record HistoryEntryArgs : Type := {
  orderId : nat;
  type : HistoryEntryType;
  entry_ctx : RequestContext;
  entry_from : string;
  entry_to : string;
}.

Record StockMovementService : Type :=
  { createSalesForOrder : M (Order * Ext) unit }.
Record PromotionService : Type :=
  { addPromotionsToOrder : M (Order * Ext) unit }.
Record HistoryService : Type :=
  { createHistoryEntryForOrder : HistoryEntryArgs -> M Ext unit }.

Record OrderOptions : Type := {
  process : Strategy;
  orderProcessStrategy : Strategy;
}.
Record ConfigService : Type := { orderOptions : OrderOptions }.

(** What the constructor is injected with. *)
Record Injected : Type := {
  configService : ConfigService;
  stockMovementService : StockMovementService;
  historyService : HistoryService;
  promotionService : PromotionService;
}.

(** A promise that was created and then dropped: what is left to do once
    the event it awaits has come. Nothing in the adapter waits for it, and
    it stays pending while the transition is under way. *)
Definition Task : Type := M (Order * Ext) unit.

Record Store : Type := {
  order : Order;
  ext : Ext;
  floating : list Task;
}.

(** What the adapter reports to the history: the calls it makes to the
    hooks and services (a service call with the order as it is handed
    over), the dates it reads off the clock, and its own write of the
    state. *)
Inductive Call : Type :=
| StrategyOnTransitionStart (fromState toState : string)
| ProcessOnTransitionStart (fromState toState : string)
| StrategyOnTransitionEnd (fromState toState : string)
| ProcessOnTransitionEnd (fromState toState : string)
| StrategyOnTransitionError (fromState toState : string) (message : option string)
| ProcessOnTransitionError (fromState toState : string) (message : option string)
| NewDate (date : nat)
| CreateSalesForOrder (o : Order)
| AddPromotionsToOrder (o : Order)
| CreateHistoryEntryForOrder (args : HistoryEntryArgs)
| SetOrderState (newState : string).

Definition Hook (R : Type) : Type := M (list Call * Store) R.

Definition report (c : Call) : Hook unit :=
  modify (fun '(cs, s) => (cs ++ [c], s)).

Definition set_order (o : Order) (s : Store) : Store :=
  {| order := o; ext := ext s; floating := floating s |}.
Definition set_ext (e : Ext) (s : Store) : Store :=
  {| order := order s; ext := e; floating := floating s |}.

(** Code that was handed the order. *)
Definition with_order {R} (m : M (Order * Ext) R) : Hook R :=
  zoom (fun '(_, s) => (order s, ext s))
       (fun '(o, e) '(cs, s) => (cs, set_order o (set_ext e s))) m.

(** Code that was handed plain values. *)
Definition detached {R} (m : M Ext R) : Hook R :=
  zoom (fun '(_, s) => ext s) (fun e '(cs, s) => (cs, set_ext e s)) m.

Definition on_ext {R} (m : M Ext R) : M (Order * Ext) R :=
  zoom snd (fun e '(o, _) => (o, e)) m.

(** A call whose result is dropped: a promise, if one came back, floats. *)
Definition float (t : Task) : Hook unit :=
  modify (fun '(cs, s) =>
    (cs, {| order := order s; ext := ext s; floating := floating s ++ [t] |})).

Definition unawaited (r : Returned (Order * Ext)) : Hook unit :=
  match r with
  | Void => ret tt
  | PromiseOf rest => float rest
  end.

Definition unawaited_detached (r : Returned Ext) : Hook unit :=
  match r with
  | Void => ret tt
  | PromiseOf rest => float (on_ext rest)
  end.

Definition the_order : Hook Order := gets (fun '(_, s) => order s).

Definition update_order (f : Order -> Order) : Hook unit :=
  modify (fun '(cs, s) => (cs, set_order (f (order s)) s)).

Definition set_state (v : string) (o : Order) : Order :=
  {| id := id o; state := v; lines := lines o; customer := customer o;
     active := active o; orderPlacedAt := orderPlacedAt o |}.
Definition set_active (v : bool) (o : Order) : Order :=
  {| id := id o; state := state o; lines := lines o; customer := customer o;
     active := v; orderPlacedAt := orderPlacedAt o |}.
Definition set_orderPlacedAt (v : option nat) (o : Order) : Order :=
  {| id := id o; state := state o; lines := lines o; customer := customer o;
     active := active o; orderPlacedAt := v |}.

(** [private onTransitionStart(fromState, toState, data)] *)
Definition onTransitionStart (fromState toState : string)
    (data : OrderTransitionData) : Hook Resolved :=
  o <- the_order ;;
  if decide (toState = "ArrangingPayment") then
    if decide (length (lines o) = 0%nat) then
      ret (RString "error.cannot-transition-to-payment-when-order-is-empty")
    else
      match customer o with
      | None => ret (RString "error.cannot-transition-to-payment-without-customer")
      | Some _ => ret RVoid
      end
  else ret RVoid.

(** [private async onTransitionEnd(fromState, toState, data)] *)
Definition onTransitionEnd (inj : Injected) (fromState toState : string)
    (data : OrderTransitionData) : Hook unit :=
  (if decide (toState = "PaymentAuthorized" \/ toState = "PaymentSettled") then
     update_order (set_active false) ;;
     date <- gets (fun '(_, s) => now (ext s)) ;;
     report (NewDate date) ;;
     update_order (set_orderPlacedAt (Some date)) ;;
     o <- the_order ;;
     report (CreateSalesForOrder o) ;;
     with_order (createSalesForOrder (stockMovementService inj)) ;;
     o <- the_order ;;
     report (AddPromotionsToOrder o) ;;
     with_order (addPromotionsToOrder (promotionService inj))
   else ret tt) ;;
  (if decide (toState = "Cancelled") then update_order (set_active false)
   else ret tt) ;;
  o <- the_order ;;
  let args := {| orderId := id o;
                 type := ORDER_STATE_TRANSITION;
                 entry_ctx := ctx data;
                 entry_from := fromState;
                 entry_to := toState |} in
  report (CreateHistoryEntryForOrder args) ;;
  detached (createHistoryEntryForOrder (historyService inj) args).

(** One step of the loop of [mergeTransitionDefinitions].
    [merged.hasOwnProperty] is looked up on [merged] itself: once [merged]
    has an own property of that name, which holds an entry object, the
    call raises a [TypeError]. The assignment [merged[key] = ...] to a key
    that [merged] lacks adds an own property, except for [__proto__],
    where it makes the entry object the prototype of [merged]. The key
    comes from [Object.keys(customTranstitions)], so
    [customTranstitions[key]] is never [undefined]; the model raises
    there. *)
Definition merge_key (merged customTranstitions : loc) (key : string)
  : M Heap unit :=
  fun h =>
    match graphs h !! merged, graphs h !! customTranstitions with
    | Some m, Some c =>
        if hasOwnProperty "hasOwnProperty" m then Throw TypeError h
        else
          match obj_get key m with
          | Some e =>
              (* merged[key].to = merged[key].to.concat(customTranstitions[key].to) *)
              match entries h !! e, obj_get key c with
              | Some to_m, Some ce =>
                  match entries h !! ce with
                  | Some to_c =>
                      Ok tt {| graphs := graphs h;
                               entries := <[e := to_m ++ to_c]> (entries h);
                               protos := protos h |}
                  | None => Throw TypeError h
                  end
              | _, _ => Throw TypeError h
              end
          | None =>
              (* merged[key] = customTranstitions[key] *)
              match obj_get key c with
              | Some ce =>
                  if decide (key = "__proto__") then
                    Ok tt {| graphs := graphs h;
                             entries := entries h;
                             protos := <[merged := ce]> (protos h) |}
                  else
                    Ok tt {| graphs := <[merged := obj_set key ce m]> (graphs h);
                             entries := entries h;
                             protos := protos h |}
              | None => Throw TypeError h
              end
          end
    | _, _ => Throw TypeError h
    end.

(** [private mergeTransitionDefinitions(defaultTranstions, customTranstitions?)] *)
Definition mergeTransitionDefinitions (defaultTranstions : loc)
    (customTranstitions : option loc) : M Heap loc :=
  match customTranstitions with
  | None => ret defaultTranstions
  | Some custom =>
      let merged := defaultTranstions in
      c <- (fun h => match graphs h !! custom with
                     | Some c => Ok c h
                     | None => Throw TypeError h
                     end) ;;
      for_of (keys c) (merge_key merged custom) ;;
      ret merged
  end.

Definition Config : Type :=
  FiniteStateMachine.StateMachineConfig Store Call OrderTransitionData.

(** [message || 'error.cannot-transition-order-from-to']: the empty
    string is falsy. *)
Definition message_or_default (message : option string) : string :=
  match message with
  | Some m => if decide (m = "") then "error.cannot-transition-order-from-to" else m
  | None => "error.cannot-transition-order-from-to"
  end.

(** The [result] of the composed guard: the strategy's guard if it has
    one, else the guard of the process options, else [undefined]. *)
Definition chosen_onTransitionStart (inj : Injected)
    (fromState toState : string) (data : OrderTransitionData) : Hook Resolved :=
  let process := process (orderOptions (configService inj)) in
  let orderProcessStrategy := orderProcessStrategy (orderOptions (configService inj)) in
  match OrderProcessStrategy.onTransitionStart orderProcessStrategy with
  | Some f =>
      report (StrategyOnTransitionStart fromState toState) ;;
      with_order (f fromState toState data)
  | None =>
      match OrderProcessStrategy.onTransitionStart process with
      | Some f =>
          report (ProcessOnTransitionStart fromState toState) ;;
          with_order (f fromState toState data)
      | None => ret RVoid
      end
  end.

(** [onTransitionStart: async (fromState, toState, data) => ...] *)
Definition config_onTransitionStart (inj : Injected)
    (fromState toState : string) (data : OrderTransitionData) : Hook Resolved :=
  resolvedResult <- chosen_onTransitionStart inj fromState toState data ;;
  match resolvedResult with
  | RBool false => ret resolvedResult
  | RString _ => ret resolvedResult
  | _ => onTransitionStart fromState toState data
  end.

(** The [if]/[else if] of the composed end hook: the strategy's hook is
    awaited, the hook of the process options is called and what it hands
    back is dropped. *)
Definition chosen_onTransitionEnd (inj : Injected)
    (fromState toState : string) (data : OrderTransitionData) : Hook unit :=
  let process := process (orderOptions (configService inj)) in
  let orderProcessStrategy := orderProcessStrategy (orderOptions (configService inj)) in
  match OrderProcessStrategy.onTransitionEnd orderProcessStrategy with
  | Some f =>
      report (StrategyOnTransitionEnd fromState toState) ;;
      with_order (r <- f fromState toState data ;; await r)
  | None =>
      match OrderProcessStrategy.onTransitionEnd process with
      | Some f =>
          report (ProcessOnTransitionEnd fromState toState) ;;
          r <- with_order (f fromState toState data) ;;
          unawaited r
      | None => ret tt
      end
  end.

(** [onTransitionEnd: async (fromState, toState, data) => ...] *)
Definition config_onTransitionEnd (inj : Injected)
    (fromState toState : string) (data : OrderTransitionData) : Hook unit :=
  chosen_onTransitionEnd inj fromState toState data ;;
  onTransitionEnd inj fromState toState data.

(** The [if]/[else if] of the composed error handler. *)
Definition chosen_onTransitionError (inj : Injected)
    (fromState toState : string) (message : option string) : Hook unit :=
  let process := process (orderOptions (configService inj)) in
  let orderProcessStrategy := orderProcessStrategy (orderOptions (configService inj)) in
  match OrderProcessStrategy.onTransitionError orderProcessStrategy with
  | Some f =>
      report (StrategyOnTransitionError fromState toState message) ;;
      detached (r <- f fromState toState message ;; await r)
  | None =>
      match OrderProcessStrategy.onTransitionError process with
      | Some f =>
          report (ProcessOnTransitionError fromState toState message) ;;
          r <- detached (f fromState toState message) ;;
          unawaited_detached r
      | None => ret tt
      end
  end.

(** [onError: async (fromState, toState, message) => ...] *)
Definition config_onError (inj : Injected)
    (fromState toState : string) (message : option string) : Hook unit :=
  chosen_onTransitionError inj fromState toState message ;;
  throw (IllegalOperationError (message_or_default message) fromState toState).

(** The object literal that [initConfig] returns. *)
Definition composed (inj : Injected) (allTransitions : loc) : Config :=
  {| FiniteStateMachine.transitions := allTransitions;
     FiniteStateMachine.onTransitionStart := Some (config_onTransitionStart inj);
     FiniteStateMachine.onTransitionEnd := Some (config_onTransitionEnd inj);
     FiniteStateMachine.onError := Some (config_onError inj) |}.

(** [private initConfig()] *)
Definition initConfig (inj : Injected) : M Heap Config :=
  let transitions :=
    OrderProcessStrategy.transitions (process (orderOptions (configService inj))) in
  allTransitions <- mergeTransitionDefinitions orderStateTransitions transitions ;;
  ret (composed inj allTransitions).

Record OrderStateMachine : Type := {
  injected : Injected;
  config : Config;
  initialState : string;
}.

(** [constructor(configService, stockMovementService, historyService,
    promotionService)] *)
Definition new_OrderStateMachine (inj : Injected) : M Heap OrderStateMachine :=
  cfg <- initConfig inj ;;
  ret {| injected := inj; config := cfg; initialState := "AddingItems" |}.

Definition AdapterWorld : Type := FiniteStateMachine.World Store Call.
Definition AdapterFSM : Type :=
  FiniteStateMachine.FSM Store Call OrderTransitionData.

(** [getInitialState()] *)
Definition getInitialState (this : OrderStateMachine) : string :=
  initialState this.

(** Runs engine code on an instance that is local to the caller. *)
Definition on_instance {A} (fsm : AdapterFSM)
    (m : FiniteStateMachine.Engine Store Call OrderTransitionData A)
  : M AdapterWorld A :=
  fun w => match m (fsm, w) with
           | Ok a (_, w') => Ok a w'
           | Throw e (_, w') => Throw e w'
           end.

(** [canTransition(currentState, newState)] *)
Definition canTransition (this : OrderStateMachine)
    (currentState newState : string) : M AdapterWorld bool :=
  on_instance (FiniteStateMachine.new_FSM (config this) currentState)
              (FiniteStateMachine.canTransitionTo newState).

(** [getNextStates(order)] *)
Definition getNextStates (this : OrderStateMachine)
  : M AdapterWorld (option (list string)) :=
  fun w =>
    on_instance (FiniteStateMachine.new_FSM (config this)
                   (state (order (FiniteStateMachine.user w))))
                FiniteStateMachine.getNextStates w.

(** The first two statements of [transition]: the engine instance and
    the world after [await fsm.transitionTo(state, { ctx, order })]. *)
Definition attempt (this : OrderStateMachine) (c : RequestContext)
    (newState : string) (w : AdapterWorld)
  : Res (AdapterFSM * AdapterWorld) unit :=
  let fsm := FiniteStateMachine.new_FSM (config this)
               (state (order (FiniteStateMachine.user w))) in
  FiniteStateMachine.transitionTo newState {| ctx := c |} (fsm, w).

(** [order.state = state] *)
Definition write_state (newState : string) (w : AdapterWorld) : AdapterWorld :=
  {| FiniteStateMachine.heap := FiniteStateMachine.heap w;
     FiniteStateMachine.history :=
       FiniteStateMachine.history w
         ++ [FiniteStateMachine.EvUser (SetOrderState newState)];
     FiniteStateMachine.user :=
       set_order (set_state newState (order (FiniteStateMachine.user w)))
                 (FiniteStateMachine.user w) |}.

(** [async transition(ctx, order, state)] *)
Definition transition (this : OrderStateMachine) (c : RequestContext)
    (newState : string) : M AdapterWorld unit :=
  fun w =>
    match attempt this c newState w with
    | Ok _ (_, w') => Ok tt (write_state newState w')
    | Throw e (_, w') => Throw e w'
    end.

End Adapter.
Arguments OrderTransitionData : clear implicits.
Arguments Strategy : clear implicits.
Arguments HistoryEntryArgs : clear implicits.
Arguments StockMovementService : clear implicits.
Arguments PromotionService : clear implicits.
Arguments HistoryService : clear implicits.
Arguments OrderOptions : clear implicits.
Arguments ConfigService : clear implicits.
Arguments Injected : clear implicits.
Arguments Task : clear implicits.
Arguments Store : clear implicits.
Arguments Call : clear implicits.
Arguments Hook : clear implicits.
Arguments Config : clear implicits.
Arguments OrderStateMachine : clear implicits.
Arguments AdapterWorld : clear implicits.
Arguments AdapterFSM : clear implicits.
End OrderStateMachine.

(** ** Vocabulary of the properties *)

Section EngineVocabulary.
Import FiniteStateMachine.
Context {St U Data : Type}.
Implicit Types (this : FSM St U Data) (w : World St U).

Definition is_commit (ev : Event U) : bool :=
  match ev with EvCommit _ _ => true | _ => false end.
Definition is_onTransitionEnd (ev : Event U) : bool :=
  match ev with EvOnTransitionEnd _ _ _ => true | _ => false end.
Definition is_onError (ev : Event U) : bool :=
  match ev with EvOnError _ _ _ => true | _ => false end.

(** The events a run added to the history of the world it started in. *)
Definition added {A} w (r : Res (FSM St U Data * World St U) A) : list (Event U) :=
  drop (length (history w)) (history (snd (final r))).

(** The world after an awaited callback that ended with the events [us]
    and the store [s]. *)
Definition after_callback w (evs : list (Event U)) (us : list U) (s : St)
  : World St U :=
  {| heap := heap w;
     history := history w ++ evs ++ map EvUser us;
     user := s |}.

(** The three ways [transitionTo state data] rejects when started on
    [this] in [w]: with which message for [onError], and in which world
    the error handler starts. *)
Inductive Rejection this w (state : string) (data : Data)
  : option string -> World St U -> Prop :=
| IllegalTarget :
    canTransitionTo state (this, w) = Ok false (this, w) ->
    Rejection this w state data None w
| GuardFalse guard us s :
    canTransitionTo state (this, w) = Ok true (this, w) ->
    onTransitionStart (config this) = Some guard ->
    guard (_currentState this) state data ([], user w) = Ok (RBool false) (us, s) ->
    Rejection this w state data None
      (after_callback w [EvOnTransitionStart (_currentState this) state] us s)
| GuardString guard us s message :
    canTransitionTo state (this, w) = Ok true (this, w) ->
    onTransitionStart (config this) = Some guard ->
    guard (_currentState this) state data ([], user w) = Ok (RString message) (us, s) ->
    Rejection this w state data (Some message)
      (after_callback w [EvOnTransitionStart (_currentState this) state] us s).

(** What a rejection with [message], whose error handler starts in [w1],
    amounts to for the outcome [r] of [transitionTo]. *)
Definition Rejected this w (state : string) (message : option string)
    (w1 : World St U) (r : Res (FSM St U Data * World St U) unit) : Prop :=
  fst (final r) = this /\
  Forall (fun ev => is_commit ev = false /\ is_onTransitionEnd ev = false)
         (added w r) /\
  match onError (config this) with
  | None => r = Ok tt (this, w1)
  | Some handler =>
      let r' := handler (_currentState this) state message ([], user w1) in
      snd (final r) =
        after_callback w1 [EvOnError (_currentState this) state message]
                       (fst (final r')) (snd (final r')) /\
      returned r = returned r'
  end.

(** The ways [transitionTo state data] gets past the guard, and the world
    in which the commit then happens. *)
Inductive Proceeds this w (state : string) (data : Data) : World St U -> Prop :=
| NoGuard :
    canTransitionTo state (this, w) = Ok true (this, w) ->
    onTransitionStart (config this) = None ->
    Proceeds this w state data w
| GuardPassed guard verdict us s :
    canTransitionTo state (this, w) = Ok true (this, w) ->
    onTransitionStart (config this) = Some guard ->
    guard (_currentState this) state data ([], user w) = Ok verdict (us, s) ->
    verdict <> RBool false ->
    (forall message, verdict <> RString message) ->
    Proceeds this w state data
      (after_callback w [EvOnTransitionStart (_currentState this) state] us s).

Definition with_currentState (state : string) this : FSM St U Data :=
  {| config := config this;
     _initialState := _initialState this;
     _currentState := state |}.

End EngineVocabulary.

Section AdapterVocabulary.
Import OrderStateMachine.
Context {Ext RequestContext : Type}.
Variable now : Ext -> nat.
Variable orderStateTransitions : loc.
Implicit Types (inj : Injected Ext RequestContext)
               (w : AdapterWorld Ext RequestContext).

(** The instance the constructor builds from what it is injected with. *)
Definition built inj : OrderStateMachine Ext RequestContext :=
  {| injected := inj;
     config := composed now inj orderStateTransitions;
     initialState := "AddingItems" |}.

(** The engine instance [transition] makes for the order of [w]. *)
Definition engine_of inj w : AdapterFSM Ext RequestContext :=
  FiniteStateMachine.new_FSM (config (built inj))
    (state (order (FiniteStateMachine.user w))).

(** Neither guard hook writes the [state] field of the order it is
    handed. *)
Definition guards_keep_state inj : Prop :=
  forall f,
    (OrderProcessStrategy.onTransitionStart
       (orderProcessStrategy (orderOptions (configService inj))) = Some f \/
     OrderProcessStrategy.onTransitionStart
       (process (orderOptions (configService inj))) = Some f) ->
    forall fromState toState data o e,
      state (fst (final (f fromState toState data (o, e)))) = state o.

(** The store after the result of an unawaited detached call was
    dropped. *)
Definition after_unawaited_detached (r : Returned Ext) (e : Ext) (s : Store Ext)
  : Store Ext :=
  match r with
  | Void => set_ext e s
  | PromiseOf rest =>
      {| order := order s; ext := e; floating := floating s ++ [on_ext rest] |}
  end.

(** The ways the error hook chosen by the composed error handler comes
    back without raising, with what the handler has then reported and
    the store it has reached: the strategy's hook, awaited; else the hook
    of the process options, called and not awaited; else no hook. *)
Inductive ErrorHookReturns inj (fromState toState : string)
    (message : option string) (cs : list (Call RequestContext)) (s : Store Ext)
  : list (Call RequestContext) * Store Ext -> Prop :=
| StrategyErrorHook f r e1 e2 :
    OrderProcessStrategy.onTransitionError
      (orderProcessStrategy (orderOptions (configService inj))) = Some f ->
    f fromState toState message (ext s) = Ok r e1 ->
    await r e1 = Ok tt e2 ->
    ErrorHookReturns inj fromState toState message cs s
      (cs ++ [StrategyOnTransitionError fromState toState message], set_ext e2 s)
| ProcessErrorHook f r e1 :
    OrderProcessStrategy.onTransitionError
      (orderProcessStrategy (orderOptions (configService inj))) = None ->
    OrderProcessStrategy.onTransitionError
      (process (orderOptions (configService inj))) = Some f ->
    f fromState toState message (ext s) = Ok r e1 ->
    ErrorHookReturns inj fromState toState message cs s
      (cs ++ [ProcessOnTransitionError fromState toState message],
       after_unawaited_detached r e1 s)
| NoErrorHook :
    OrderProcessStrategy.onTransitionError
      (orderProcessStrategy (orderOptions (configService inj))) = None ->
    OrderProcessStrategy.onTransitionError
      (process (orderOptions (configService inj))) = None ->
    ErrorHookReturns inj fromState toState message cs s (cs, s).

(** The ways the guard chosen by the composed guard resolves, with what
    the composed guard has then reported and the store it has reached:
    the strategy's guard; else the guard of the process options; else no
    guard, which counts as [undefined]. *)
Inductive ChosenGuard inj (fromState toState : string)
    (data : OrderTransitionData RequestContext)
    (cs : list (Call RequestContext)) (s : Store Ext)
  : Resolved -> list (Call RequestContext) * Store Ext -> Prop :=
| StrategyGuard f v o e :
    OrderProcessStrategy.onTransitionStart
      (orderProcessStrategy (orderOptions (configService inj))) = Some f ->
    f fromState toState data (order s, ext s) = Ok v (o, e) ->
    ChosenGuard inj fromState toState data cs s v
      (cs ++ [StrategyOnTransitionStart fromState toState],
       set_order o (set_ext e s))
| ProcessGuard f v o e :
    OrderProcessStrategy.onTransitionStart
      (orderProcessStrategy (orderOptions (configService inj))) = None ->
    OrderProcessStrategy.onTransitionStart
      (process (orderOptions (configService inj))) = Some f ->
    f fromState toState data (order s, ext s) = Ok v (o, e) ->
    ChosenGuard inj fromState toState data cs s v
      (cs ++ [ProcessOnTransitionStart fromState toState],
       set_order o (set_ext e s))
| NoGuardHook :
    OrderProcessStrategy.onTransitionStart
      (orderProcessStrategy (orderOptions (configService inj))) = None ->
    OrderProcessStrategy.onTransitionStart
      (process (orderOptions (configService inj))) = None ->
    ChosenGuard inj fromState toState data cs s RVoid (cs, s).


Definition is_createHistoryEntryForOrder
    (ev : FiniteStateMachine.Event (Call RequestContext)) : bool :=
  match ev with
  | FiniteStateMachine.EvUser (CreateHistoryEntryForOrder _) => true
  | _ => false
  end.

(** The events of the payment side effects: a date read off the clock, a
    call of the stock service, a call of the promotion service. *)
Definition is_payment_effect
    (ev : FiniteStateMachine.Event (Call RequestContext)) : bool :=
  match ev with
  | FiniteStateMachine.EvUser (NewDate _)
  | FiniteStateMachine.EvUser (CreateSalesForOrder _)
  | FiniteStateMachine.EvUser (AddPromotionsToOrder _) => true
  | _ => false
  end.

(** What the history of [w'] holds beyond that of [w]. *)
Definition since w w' : list (FiniteStateMachine.Event (Call RequestContext)) :=
  drop (length (FiniteStateMachine.history w)) (FiniteStateMachine.history w').

(** A guard's result that is an opinion: [false] or a string. *)
Definition vetoes (v : Resolved) : Prop :=
  v = RBool false \/ exists m, v = RString m.

(** The outcome of the error hook chosen by the composed error handler:
    the exception it raised, if it raised one, with what the handler has
    then reported and the store it has reached. The strategy's hook
    raises also when the promise it handed back is rejected; the hook of
    the process options, the one called where the strategy has none,
    raises when the call itself does. *)
Inductive ErrorHookOutcome inj (fromState toState : string)
    (message : option string) (cs : list (Call RequestContext)) (s : Store Ext)
  : option Exn -> list (Call RequestContext) * Store Ext -> Prop :=
| HookReturned p' :
    ErrorHookReturns inj fromState toState message cs s p' ->
    ErrorHookOutcome inj fromState toState message cs s None p'
| StrategyHookRaised f e e1 :
    OrderProcessStrategy.onTransitionError
      (orderProcessStrategy (orderOptions (configService inj))) = Some f ->
    f fromState toState message (ext s) = Throw e e1 ->
    ErrorHookOutcome inj fromState toState message cs s (Some e)
      (cs ++ [StrategyOnTransitionError fromState toState message], set_ext e1 s)
| StrategyHookRejected f r e1 e e2 :
    OrderProcessStrategy.onTransitionError
      (orderProcessStrategy (orderOptions (configService inj))) = Some f ->
    f fromState toState message (ext s) = Ok r e1 ->
    await r e1 = Throw e e2 ->
    ErrorHookOutcome inj fromState toState message cs s (Some e)
      (cs ++ [StrategyOnTransitionError fromState toState message], set_ext e2 s)
| ProcessHookRaised f e e1 :
    OrderProcessStrategy.onTransitionError
      (orderProcessStrategy (orderOptions (configService inj))) = None ->
    OrderProcessStrategy.onTransitionError
      (process (orderOptions (configService inj))) = Some f ->
    f fromState toState message (ext s) = Throw e e1 ->
    ErrorHookOutcome inj fromState toState message cs s (Some e)
      (cs ++ [ProcessOnTransitionError fromState toState message], set_ext e1 s).

(** What the composed error handler raises after that outcome. *)
Definition raised_after (outcome : option Exn) (fromState toState : string)
    (message : option string) : Exn :=
  match outcome with
  | Some e => e
  | None => IllegalOperationError (message_or_default message) fromState toState
  end.

(** The history entry of a transition. *)
Definition history_entry (order_id : nat) (c : RequestContext)
    (fromState toState : string) : HistoryEntryArgs RequestContext :=
  {| orderId := order_id;
     type := ORDER_STATE_TRANSITION;
     entry_ctx := c;
     entry_from := fromState;
     entry_to := toState |}.

(** The payment side effects as runs of the services, from the store [s]
    to the store [s']: the order is made inactive and stamped with the
    date the clock shows; the stock service runs on it; the promotion
    service runs on what the stock service left; the history service runs
    on what the promotion service left; [s'] is what the history service
    left. [mid] is what has been reported meanwhile. *)
Definition payment_effects inj (fromState toState : string) (c : RequestContext)
    (s s' : Store Ext) (mid : list (Call RequestContext)) : Prop :=
  let date := now (ext s) in
  let o' := set_orderPlacedAt (Some date) (set_active false (order s)) in
  exists o1 e1 o2 e2 e3,
    createSalesForOrder (stockMovementService inj) (o', ext s) = Ok tt (o1, e1) /\
    addPromotionsToOrder (promotionService inj) (o1, e1) = Ok tt (o2, e2) /\
    createHistoryEntryForOrder (historyService inj)
      (history_entry (id o2) c fromState toState) e2 = Ok tt e3 /\
    s' = {| order := o2; ext := e3; floating := floating s |} /\
    mid = [NewDate date; CreateSalesForOrder o'; AddPromotionsToOrder o1;
           CreateHistoryEntryForOrder (history_entry (id o2) c fromState toState)].

(** The built-in end hook for a target that is no payment state, as a run
    of the history service, from [s] to [s']: the order is made inactive
    if the target is [Cancelled] and is otherwise left alone, and the
    history service is the one service that runs. *)
Definition history_only inj (fromState toState : string) (c : RequestContext)
    (s s' : Store Ext) (mid : list (Call RequestContext)) : Prop :=
  let o' := if decide (toState = "Cancelled") then set_active false (order s)
            else order s in
  exists e3,
    createHistoryEntryForOrder (historyService inj)
      (history_entry (id o') c fromState toState) (ext s) = Ok tt e3 /\
    s' = {| order := o'; ext := e3; floating := floating s |} /\
    mid = [CreateHistoryEntryForOrder (history_entry (id o') c fromState toState)].

(** Whether the built-in end hook runs the payment side effects. *)
Definition is_payment_state (toState : string) : Prop :=
  toState = "PaymentAuthorized" \/ toState = "PaymentSettled".

(** What the built-in end hook does on a transition to [toState]. *)
Definition built_in_effects inj (fromState toState : string) (c : RequestContext)
    (s s' : Store Ext) (mid : list (Call RequestContext)) : Prop :=
  (is_payment_state toState -> payment_effects inj fromState toState c s s' mid) /\
  (~ is_payment_state toState -> history_only inj fromState toState c s s' mid).

(** A [transition] to [target] that returned, from [w] to [w2], laid out:
    the guard let it through, in the world [wg]; the engine committed;
    the hook chosen by the composed end hook returned, having reported
    [pre] and reached the store [s1]; the built-in end hook took the
    store from [s1] to [s2] as [effects] says, reporting [mid]; the
    adapter then wrote the state to the order. *)
Definition entrance inj (c : RequestContext) (target : string) w w2
    (effects : Store Ext -> Store Ext -> list (Call RequestContext) -> Prop) : Prop :=
  let fromState := state (order (FiniteStateMachine.user w)) in
  exists wg pre s1 s2 mid,
    Proceeds (engine_of inj w) w target {| ctx := c |} wg /\
    chosen_onTransitionEnd inj fromState target {| ctx := c |}
      ([], FiniteStateMachine.user wg) = Ok tt (pre, s1) /\
    effects s1 s2 mid /\
    FiniteStateMachine.user w2 = set_order (set_state target (order s2)) s2 /\
    FiniteStateMachine.history w2 =
      FiniteStateMachine.history wg
        ++ [FiniteStateMachine.EvCommit fromState target;
            FiniteStateMachine.EvOnTransitionEnd fromState target target]
        ++ map FiniteStateMachine.EvUser (pre ++ mid ++ [SetOrderState target]).

End AdapterVocabulary.

(** What the merge needs of a base graph [bo] and an override graph [co]
    to do what it is meant to. The first three say that the two lists
    stand for objects of the heap: the override lists each key once, and
    every entry object that is mentioned is allocated. [mg_unshared]: an
    entry object that the base holds under a key of the override, and
    that the merge therefore writes to, is held under no other key of
    either graph. [mg_hasOwnProperty] and [mg_proto]: no key shadows the
    method the merge calls on the base, and the override has no key
    [__proto__]. *)
Record mergeable (h : Heap) (bo co : JSObject loc) : Prop := {
  mg_keys : NoDup (keys co);
  mg_base_allocated :
    forall k e, obj_get k bo = Some e -> is_Some (entries h !! e);
  mg_custom_allocated :
    forall k e, obj_get k co = Some e -> is_Some (entries h !! e);
  mg_unshared :
    forall k' k e,
      k' <> k -> obj_get k' bo = Some e -> is_Some (obj_get k' co) ->
      obj_get k bo <> Some e /\ obj_get k co <> Some e;
  mg_hasOwnProperty :
    obj_get "hasOwnProperty" bo = None /\ obj_get "hasOwnProperty" co = None;
  mg_proto : obj_get "__proto__" co = None;
}.

(** The two graphs have no entry object in common. *)
Definition disjoint (bo co : JSObject loc) : Prop :=
  forall k1 k2 e, obj_get k1 bo = Some e -> obj_get k2 co <> Some e.

Section MergeVocabulary.
Variables (h : Heap) (base custom : loc) (bo co : JSObject loc).

(** The heap [hi] the loop of the merge has reached from [h] once the keys
    [seen] of the override have been merged: the override object is as it
    was; the base object has gained
    the keys among [seen] that it lacked, with the override's entry
    objects; the entry objects of the base under keys among [seen] hold
    the two lists appended; every other entry object is as it was, and so
    are the prototypes. *)
Record merged_upto (seen : list string) (hi : Heap) : Prop := {
  mu_custom : graphs hi !! custom = Some co;
  mu_base : exists boi,
    graphs hi !! base = Some boi /\
    forall k, obj_get k boi =
              match obj_get k bo with
              | Some e => Some e
              | None => if decide (k ∈ seen) then obj_get k co else None
              end;
  mu_appended : forall k be ce ys xs,
    k ∈ seen -> obj_get k bo = Some be -> obj_get k co = Some ce ->
    entries h !! be = Some ys -> entries h !! ce = Some xs ->
    entries hi !! be = Some (ys ++ xs);
  mu_untouched : forall e,
    (forall k, k ∈ seen -> obj_get k bo <> Some e) ->
    entries hi !! e = entries h !! e;
  mu_protos : protos hi = protos h;
}.
End MergeVocabulary.

(** The entry object [h.g[k]]. *)
Definition graph_entry (h : Heap) (g : loc) (k : string) : option loc :=
  match graphs h !! g with
  | Some o => obj_get k o
  | None => None
  end.

(** ** A sample installation

    The outside world is a journal of what the services and hooks did; the
    clock shows the length of the journal. *)

Module Sample.
Import OrderStateMachine.

Definition Journal : Type := list string.
Definition clock (e : Journal) : nat := length e.

Definition note {A} (what : string) : M (A * Journal) unit :=
  modify (fun '(a, e) => (a, e ++ [what])).

Definition stock : StockMovementService Journal :=
  {| createSalesForOrder := note "createSalesForOrder" |}.
Definition promotions : PromotionService Journal :=
  {| addPromotionsToOrder := note "addPromotionsToOrder" |}.
Definition histories : HistoryService Journal unit :=
  {| createHistoryEntryForOrder := fun _ =>
       modify (fun e => e ++ ["createHistoryEntryForOrder"]) |}.

Definition no_hooks : Strategy Journal unit :=
  {| OrderProcessStrategy.transitions := None;
     OrderProcessStrategy.onTransitionStart := None;
     OrderProcessStrategy.onTransitionEnd := None;
     OrderProcessStrategy.onTransitionError := None |}.

Definition install (process strategy : Strategy Journal unit)
  : Injected Journal unit :=
  {| configService :=
       {| orderOptions :=
            {| process := process; orderProcessStrategy := strategy |} |};
     stockMovementService := stock;
     historyService := histories;
     promotionService := promotions |}.

Definition plain : Injected Journal unit := install no_hooks no_hooks.

(** A strategy whose guard vetoes every transition with a reason. *)
Definition vetoing : Injected Journal unit :=
  install no_hooks
    {| OrderProcessStrategy.transitions := None;
       OrderProcessStrategy.onTransitionStart :=
         Some (fun _ _ _ => note "guard" ;; ret (RString "error.not-today"));
       OrderProcessStrategy.onTransitionEnd := None;
       OrderProcessStrategy.onTransitionError := None |}.

(** A strategy whose guard approves of every transition. *)
Definition approving : Injected Journal unit :=
  install no_hooks
    {| OrderProcessStrategy.transitions := None;
       OrderProcessStrategy.onTransitionStart :=
         Some (fun _ _ _ => note "guard" ;; ret (RBool true));
       OrderProcessStrategy.onTransitionEnd := None;
       OrderProcessStrategy.onTransitionError := None |}.

(** A strategy whose guard fails. *)
Definition failing_guard : Injected Journal unit :=
  install no_hooks
    {| OrderProcessStrategy.transitions := None;
       OrderProcessStrategy.onTransitionStart :=
         Some (fun _ _ _ => note "guard" ;; throw (ExternalError "guard failed"));
       OrderProcessStrategy.onTransitionEnd := None;
       OrderProcessStrategy.onTransitionError := None |}.

(** An installation whose stock service fails. *)
Definition failing_stock : Injected Journal unit :=
  {| configService := configService plain;
     stockMovementService :=
       {| createSalesForOrder := throw (ExternalError "out of stock") |};
     historyService := histories;
     promotionService := promotions |}.

(** A strategy whose error hook keeps a note. *)
Definition noting_errors : Injected Journal unit :=
  install no_hooks
    {| OrderProcessStrategy.transitions := None;
       OrderProcessStrategy.onTransitionStart := None;
       OrderProcessStrategy.onTransitionEnd := None;
       OrderProcessStrategy.onTransitionError :=
         Some (fun _ _ _ =>
                 modify (fun e => e ++ ["onTransitionError"]) ;; ret Void) |}.

(** A strategy whose error hook fails. *)
Definition failing_error_hook : Injected Journal unit :=
  install no_hooks
    {| OrderProcessStrategy.transitions := None;
       OrderProcessStrategy.onTransitionStart := None;
       OrderProcessStrategy.onTransitionEnd := None;
       OrderProcessStrategy.onTransitionError :=
         Some (fun _ _ _ => throw (ExternalError "error hook failed")) |}.

(** Process options whose end hook is an [async] function: it writes to
    the journal once the event it awaits has come. *)
Definition async_end_hook : Injected Journal unit :=
  install
    {| OrderProcessStrategy.transitions := None;
       OrderProcessStrategy.onTransitionStart := None;
       OrderProcessStrategy.onTransitionEnd :=
         Some (fun _ _ _ => ret (PromiseOf (note "onTransitionEnd finished")));
       OrderProcessStrategy.onTransitionError := None |}
    no_hooks.

(** The same hook, offered by the strategy. *)
Definition async_end_hook_of_strategy : Injected Journal unit :=
  install no_hooks
    {| OrderProcessStrategy.transitions := None;
       OrderProcessStrategy.onTransitionStart := None;
       OrderProcessStrategy.onTransitionEnd :=
         Some (fun _ _ _ => ret (PromiseOf (note "onTransitionEnd finished")));
       OrderProcessStrategy.onTransitionError := None |}.

(** A base graph at location [0], its entry objects at [10] to [14]. *)
Definition base : loc := 0%nat.
Definition sample_heap : Heap :=
  {| graphs :=
       {[ base := [("AddingItems", 10%nat); ("ArrangingPayment", 11%nat);
                   ("PaymentAuthorized", 12%nat); ("PaymentSettled", 13%nat);
                   ("Cancelled", 14%nat)] ]};
     entries :=
       list_to_map
         [(10%nat, ["ArrangingPayment"; "Cancelled"]);
          (11%nat, ["PaymentAuthorized"; "PaymentSettled"; "AddingItems"; "Cancelled"]);
          (12%nat, ["PaymentSettled"; "Cancelled"]);
          (13%nat, ["Cancelled"]);
          (14%nat, [])];
     protos := ∅ |}.

(** Process options that extend the base graph by the graph at location
    [1]: a further destination for [AddingItems], and a state of their
    own. *)
Definition custom : loc := 1%nat.
Definition extended_heap : Heap :=
  {| graphs :=
       <[ custom := [("AddingItems", 20%nat); ("Validating", 21%nat)] ]>
         (graphs sample_heap);
     entries :=
       <[ 20%nat := ["Validating"] ]>
         (<[ 21%nat := ["ArrangingPayment"] ]> (entries sample_heap));
     protos := ∅ |}.
Definition extending : Injected Journal unit :=
  install
    {| OrderProcessStrategy.transitions := Some custom;
       OrderProcessStrategy.onTransitionStart := None;
       OrderProcessStrategy.onTransitionEnd := None;
       OrderProcessStrategy.onTransitionError := None |}
    no_hooks.

(** The graphs [{ S: { to: [Y] } }] at [0] and [{ S: { to: [X] } }] at
    [1]. *)
Definition two_graphs : Heap :=
  {| graphs := <[ 0%nat := [("S", 10%nat)] ]> {[ 1%nat := [("S", 20%nat)] ]};
     entries := <[ 10%nat := ["Y"] ]> {[ 20%nat := ["X"] ]};
     protos := ∅ |}.

(** A base graph [{ A: e, B: e }] at [0] that holds one entry object
    [e = { to: [Y] }] under two keys, and the override
    [{ A: { to: [X] }, B: { to: [Z] } }] at [1]. *)
Definition shared_entry : Heap :=
  {| graphs := <[ 0%nat := [("A", 10%nat); ("B", 10%nat)] ]>
                 {[ 1%nat := [("A", 20%nat); ("B", 21%nat)] ]};
     entries := <[ 10%nat := ["Y"] ]> (<[ 20%nat := ["X"] ]> {[ 21%nat := ["Z"] ]});
     protos := ∅ |}.

(** The base graph [{ S: { to: [Y] } }] at [0] and the override
    [{ hasOwnProperty: { to: [X] }, Z: { to: [S] } }] at [1], which has a
    state named as the method the merge calls. *)
Definition shadowing : Heap :=
  {| graphs := <[ 0%nat := [("S", 10%nat)] ]>
                 {[ 1%nat := [("hasOwnProperty", 20%nat); ("Z", 21%nat)] ]};
     entries := <[ 10%nat := ["Y"] ]> (<[ 20%nat := ["X"] ]> {[ 21%nat := ["S"] ]});
     protos := ∅ |}.

(** The base graph [{ hasOwnProperty: { to: [Y] } }] at [0], which has
    such a state itself, and the override [{ S: { to: [X] } }] at [1]. *)
Definition shadowed_base : Heap :=
  {| graphs := <[ 0%nat := [("hasOwnProperty", 10%nat)] ]>
                 {[ 1%nat := [("S", 20%nat)] ]};
     entries := <[ 10%nat := ["Y"] ]> {[ 20%nat := ["X"] ]};
     protos := ∅ |}.

(** The base graph [{ S: { to: [Y] } }] at [0] and an override at [1]
    whose one key is [__proto__], as [JSON.parse] makes it. *)
Definition proto_key : Heap :=
  {| graphs := <[ 0%nat := [("S", 10%nat)] ]>
                 {[ 1%nat := [("__proto__", 20%nat)] ]};
     entries := <[ 10%nat := ["Y"] ]> {[ 20%nat := ["X"] ]};
     protos := ∅ |}.

(** A strategy that declares the transitions of [custom]; the process
    options declare none. *)
Definition strategy_with_transitions : Injected Journal unit :=
  install no_hooks
    {| OrderProcessStrategy.transitions := Some custom;
       OrderProcessStrategy.onTransitionStart := None;
       OrderProcessStrategy.onTransitionEnd := None;
       OrderProcessStrategy.onTransitionError := None |}.

Definition order_in (st : string) (ls : list nat) (cust : option nat) : Order :=
  {| id := 7%nat; state := st; lines := ls; customer := cust;
     active := true; orderPlacedAt := None |}.

Definition world_of (o : Order) : AdapterWorld Journal unit :=
  {| FiniteStateMachine.heap := sample_heap;
     FiniteStateMachine.history := [];
     FiniteStateMachine.user := {| order := o; ext := []; floating := [] |} |}.

Definition machine (inj : Injected Journal unit) : OrderStateMachine Journal unit :=
  built clock base inj.

(** An order being filled, with one line and a customer, and the same
    order with no lines. *)
Definition filled : Order := order_in "AddingItems" [1%nat] (Some 3%nat).
Definition empty : Order := order_in "AddingItems" [] (Some 3%nat).

(** The store and the world after the guard of [vetoing] or [approving]
    ran on an order. *)
Definition guarded (o : Order) : Store Journal :=
  {| order := o; ext := ["guard"]; floating := [] |}.
Definition after_guard (o : Order) (toState : string) : AdapterWorld Journal unit :=
  after_callback (world_of o)
    [FiniteStateMachine.EvOnTransitionStart (state o) toState]
    [StrategyOnTransitionStart (state o) toState]
    (guarded o).

End Sample.

(** ** Reading the graph *)

Lemma graph_to_ToArray (h : Heap) (g : loc) (k : string) (l : list string) :
  graph_to h g k = Some l -> read_to h g k = ToArray l.
Proof.
  unfold graph_to. destruct (read_to h g k); congruence.
Qed.

Lemma graph_to_own (h : Heap) (g : loc) (o : JSObject loc) (k : string) (e : loc) :
  graphs h !! g = Some o -> obj_get k o = Some e ->
  graph_to h g k = entries h !! e.
Proof.
  intros Hg Hk. unfold graph_to, read_to, get_property. rewrite Hg, Hk.
  destruct (entries h !! e); reflexivity.
Qed.

(** ** Properties of the engine *)

Section EngineProperties.
Import FiniteStateMachine.
Context {St U Data : Type}.
Implicit Types (this : FSM St U Data) (w : World St U).

Lemma indexOf_from_spec (x : string) (l : list string) (i : Z) :
  (0 <= i)%Z ->
  (In x l -> (i <= indexOf_from i x l)%Z) /\
  (~ In x l -> indexOf_from i x l = (-1)%Z).
Proof.
  revert i. induction l as [|y l IH]; intros i Hi; simpl.
  - split; [tauto | reflexivity].
  - destruct (decide (y = x)) as [->|Hne].
    + split; [lia | tauto].
    + destruct (IH (i + 1)%Z ltac:(lia)) as [IH1 IH2]. split.
      * intros [?|Hin]; [congruence | specialize (IH1 Hin); lia].
      * intros Hn. apply IH2. tauto.
Qed.

Lemma indexOf_In (x : string) (l : list string) :
  (-1 <? indexOf x l)%Z = true <-> In x l.
Proof.
  unfold indexOf. destruct (indexOf_from_spec x l 0 ltac:(lia)) as [H1 H2].
  rewrite Z.ltb_lt. split.
  - intros Hlt. destruct (in_dec string_dec x l) as [|Hn]; [assumption|].
    rewrite (H2 Hn) in Hlt. lia.
  - intros Hin. specialize (H1 Hin). lia.
Qed.

Lemma added_after_callback {A} w evs us s
    (r : Res (FSM St U Data * World St U) A) this' :
  final r = (this', after_callback w evs us s) ->
  added w r = evs ++ map EvUser us.
Proof.
  intros Hr. unfold added. rewrite Hr. simpl.
  apply drop_app_length.
Qed.

Lemma Forall_EvUser (P : Event U -> Prop) (us : list U) :
  (forall u, P (EvUser u)) -> Forall P (map EvUser us).
Proof. intros HP. apply Forall_forall. intros ev Hin.
  apply list_elem_of_In, in_map_iff in Hin. destruct Hin as (u & <- & _). apply HP.
Qed.

(** The engine's private [onError], started in a world [w1] that
    extends the history of [w] by events that are neither a commit nor an
    end callback. *)
Lemma onError_Rejected this w w1 (state : string) (message : option string)
    (evs : list (Event U)) :
  history w1 = history w ++ evs ->
  Forall (fun ev => is_commit ev = false /\ is_onTransitionEnd ev = false) evs ->
  Rejected this w state message w1
    (onError_ (_currentState this) state message (this, w1)).
Proof.
  intros Hh Hevs. unfold Rejected, onError_, bind, this_, gets. simpl.
  destruct (onError (config this)) as [handler|] eqn:Hhandler; simpl.
  - unfold record, modify, call. simpl.
    destruct (handler (_currentState this) state message ([], user w1))
      as [[] [us s]|e [us s]] eqn:Hrun; simpl;
      (split; [reflexivity|]); (split; [|split; [|reflexivity]]).
    all: try (unfold after_callback; simpl; rewrite <- app_assoc; reflexivity).
    all: unfold added; simpl; rewrite Hh, <- !app_assoc, drop_app_length;
      apply Forall_app; split; [assumption|];
      apply Forall_app; split; [repeat constructor|];
      apply Forall_EvUser; intros; split; reflexivity.
  - split; [reflexivity|]. split; [|reflexivity].
    unfold added; simpl. rewrite Hh, drop_app_length. assumption.
Qed.

Lemma transitionTo_Rejected this w (state : string) (data : Data)
    (message : option string) (w1 : World St U) :
  Rejection this w state data message w1 ->
  Rejected this w state message w1 (transitionTo state data (this, w)).
Proof.
  intros Hrej. destruct Hrej as [Hcan | guard us s Hcan Hguard Hrun
                                | guard us s m Hcan Hguard Hrun].
  - unfold transitionTo, bind. rewrite Hcan. simpl.
    apply (onError_Rejected this w w state None []).
    + rewrite app_nil_r. reflexivity.
    + constructor.
  - unfold transitionTo, bind. rewrite Hcan. simpl. rewrite Hguard.
    unfold call. simpl. rewrite Hrun. simpl. rewrite <- app_assoc.
    apply (onError_Rejected this w _ state None
             (EvOnTransitionStart (_currentState this) state :: map EvUser us)).
    + simpl. reflexivity.
    + constructor; [split; reflexivity|].
      apply Forall_EvUser; intros; split; reflexivity.
  - unfold transitionTo, bind. rewrite Hcan. simpl. rewrite Hguard.
    unfold call. simpl. rewrite Hrun. simpl. rewrite <- app_assoc.
    apply (onError_Rejected this w _ state (Some m)
             (EvOnTransitionStart (_currentState this) state :: map EvUser us)).
    + simpl. reflexivity.
    + constructor; [split; reflexivity|].
      apply Forall_EvUser; intros; split; reflexivity.
Qed.

(** What [commit] does, whatever the end callback does. *)
Lemma commit_spec this w (state : string) (data : Data) :
  let r := commit state data (this, w) in
  fst (final r) = with_currentState state this /\
  match onTransitionEnd (config this) with
  | None =>
      r = Ok tt (with_currentState state this,
                 after_callback w [EvCommit (_currentState this) state] [] (user w))
  | Some handler =>
      let r' := handler (_currentState this) state data ([], user w) in
      snd (final r) =
        after_callback w
          [EvCommit (_currentState this) state;
           EvOnTransitionEnd (_currentState this) state state]
          (fst (final r')) (snd (final r')) /\
      returned r = returned r'
  end.
Proof.
  unfold commit, bind, this_, gets, set_currentState, record, modify. simpl.
  destruct (onTransitionEnd (config this)) as [handler|] eqn:Hend; simpl.
  - unfold call. simpl.
    destruct (handler (_currentState this) state data ([], user w))
      as [[] [us s]|e [us s]] eqn:Hrun; simpl;
      (split; [reflexivity|]); (split; [|reflexivity]);
      unfold after_callback; simpl; rewrite <- !app_assoc; reflexivity.
  - split; reflexivity.
Qed.

Lemma transitionTo_Proceeds this w (state : string) (data : Data)
    (w1 : World St U) :
  Proceeds this w state data w1 ->
  transitionTo state data (this, w) = commit state data (this, w1).
Proof.
  intros Hp. destruct Hp as [Hcan Hguard | guard verdict us s Hcan Hguard Hrun Hnf Hns].
  - unfold transitionTo, bind. rewrite Hcan. simpl. rewrite Hguard. reflexivity.
  - unfold transitionTo, bind. rewrite Hcan. simpl. rewrite Hguard.
    unfold call. simpl. rewrite Hrun. simpl. rewrite <- app_assoc.
    destruct verdict as [[|]| m |]; try reflexivity.
    + congruence.
    + exfalso. apply (Hns m). reflexivity.
Qed.

Lemma Proceeds_history this w (state : string) (data : Data) (w1 : World St U) :
  Proceeds this w state data w1 ->
  exists evs, history w1 = history w ++ evs /\
    Forall (fun ev => is_commit ev = false /\ is_onTransitionEnd ev = false) evs.
Proof.
  intros [? ? | guard verdict us s ? ? ? ? ?].
  - exists []. rewrite app_nil_r. split; [reflexivity | constructor].
  - eexists. split; [reflexivity|]. simpl.
    constructor; [split; reflexivity|].
    apply Forall_EvUser; intros; split; reflexivity.
Qed.

Lemma canTransitionTo_cases this w (state : string) :
  canTransitionTo state (this, w) = Throw TypeError (this, w) \/
  exists b, canTransitionTo state (this, w) = Ok b (this, w).
Proof.
  unfold canTransitionTo.
  destruct (graph_to _ _ _); [right; eexists; reflexivity | left; reflexivity].
Qed.

(** Every run of [transitionTo] is of one of four kinds. *)
Lemma transitionTo_cases this w (state : string) (data : Data) :
  let r := transitionTo state data (this, w) in
  r = Throw TypeError (this, w) \/
  (exists guard e us s,
      onTransitionStart (config this) = Some guard /\
      guard (_currentState this) state data ([], user w) = Throw e (us, s) /\
      r = Throw e (this, after_callback w
                           [EvOnTransitionStart (_currentState this) state] us s)) \/
  (exists message w1, Rejection this w state data message w1) \/
  (exists w1, Proceeds this w state data w1).
Proof.
  intros r. subst r.
  destruct (canTransitionTo_cases this w state) as [Hcan|[[|] Hcan]].
  - left. unfold transitionTo, bind. rewrite Hcan. reflexivity.
  - destruct (onTransitionStart (config this)) as [guard|] eqn:Hguard.
    + destruct (guard (_currentState this) state data ([], user w))
        as [verdict [us s]|e [us s]] eqn:Hrun.
      * destruct verdict as [[|]|m|].
        -- right; right; right. eexists.
           eapply GuardPassed; eauto; congruence.
        -- right; right; left. do 2 eexists. eapply GuardFalse; eauto.
        -- right; right; left. do 2 eexists. eapply GuardString; eauto.
        -- right; right; right. eexists.
           eapply GuardPassed; eauto; congruence.
      * right; left. exists guard, e, us, s. split; [reflexivity|].
        split; [assumption|].
        unfold transitionTo, bind. rewrite Hcan. simpl. rewrite Hguard.
        unfold call. simpl. rewrite Hrun. simpl. rewrite <- app_assoc.
        reflexivity.
    + right; right; right. exists w. apply NoGuard; assumption.
  - right; right; left. exists None, w. apply IllegalTarget; assumption.
Qed.

Lemma transitionTo_guard_raises this w (state : string) (data : Data)
    (guard : string -> string -> Data -> Callback Resolved)
    (e : Exn) (us : list U) (s : St) :
  canTransitionTo state (this, w) = Ok true (this, w) ->
  onTransitionStart (config this) = Some guard ->
  guard (_currentState this) state data ([], user w) = Throw e (us, s) ->
  transitionTo state data (this, w) =
    Throw e (this, after_callback w [EvOnTransitionStart (_currentState this) state] us s).
Proof.
  intros Hcan Hguard Hrun.
  unfold transitionTo, bind. rewrite Hcan. simpl. rewrite Hguard.
  unfold call. simpl. rewrite Hrun. simpl. rewrite <- app_assoc. reflexivity.
Qed.

End EngineProperties.

(** C9: for every state [to], [canTransitionTo(to)] answers [true] exactly
    when [to] is in the destination list the graph holds for the current
    state, [getNextStates()] answers that list as it stands, in its order,
    and neither changes the instance or the world. *)
Theorem canTransitionTo_getNextStates_spec {St U Data : Type}
    (this : FiniteStateMachine.FSM St U Data)
    (w : FiniteStateMachine.World St U) (dests : list string) :
  graph_to (FiniteStateMachine.heap w)
           (FiniteStateMachine.transitions (FiniteStateMachine.config this))
           (FiniteStateMachine._currentState this) = Some dests ->
  (forall to : string,
      exists b : bool,
        FiniteStateMachine.canTransitionTo to (this, w) = Ok b (this, w) /\
        (b = true <-> In to dests)) /\
  FiniteStateMachine.getNextStates (this, w) = Ok (Some dests) (this, w).
Proof.
  intros Hg. split.
  - intros to. exists (-1 <? indexOf to dests)%Z. split.
    + unfold FiniteStateMachine.canTransitionTo. rewrite Hg. reflexivity.
    + apply indexOf_In.
  - unfold FiniteStateMachine.getNextStates.
    rewrite (graph_to_ToArray _ _ _ _ Hg). reflexivity.
Qed.

(** C4: a call of [transitionTo(state, data)] that is rejected, because the
    target is not among the destinations of the current state (message
    [undefined]), because the guard resolved to [false] (message
    [undefined]) or because it resolved to a string (that string as
    message), leaves the instance, and so [currentState], as it was, makes
    no commit and does not invoke [onTransitionEnd]; it invokes the
    configured [onError] with the current state, the target and that
    message, and returns or raises as that handler does; where no handler
    is configured it returns silently, and nothing has happened beyond
    what the guard did. *)
Theorem transitionTo_rejection {St U Data : Type}
    (this : FiniteStateMachine.FSM St U Data)
    (w : FiniteStateMachine.World St U) (state : string) (data : Data)
    (message : option string) (w1 : FiniteStateMachine.World St U) :
  Rejection this w state data message w1 ->
  Rejected this w state message w1
    (FiniteStateMachine.transitionTo state data (this, w)).
Proof. apply transitionTo_Rejected. Qed.


(** ** Properties of the merge *)

Lemma obj_get_set {V} (j k : string) (v : V) (o : JSObject V) :
  obj_get j (obj_set k v o) = if decide (j = k) then Some v else obj_get j o.
Proof.
  induction o as [|[k' v'] o IH]; simpl.
  - destruct (decide (k = j)), (decide (j = k)); congruence.
  - destruct (decide (k' = k)) as [->|Hne]; simpl.
    + destruct (decide (k = j)), (decide (j = k)); congruence.
    + destruct (decide (k' = j)) as [->|Hne'].
      * destruct (decide (j = k)); congruence.
      * exact IH.
Qed.

Lemma obj_get_keys {V} (k : string) (o : JSObject V) :
  In k (keys o) -> is_Some (obj_get k o).
Proof.
  induction o as [|[k' v'] o IH]; simpl; [tauto|].
  intros [->|Hin].
  - destruct (decide (k = k)); [eauto | congruence].
  - destruct (decide (k' = k)); [eauto | apply IH, Hin].
Qed.

Lemma obj_get_In_keys {V} (k : string) (o : JSObject V) (v : V) :
  obj_get k o = Some v -> In k (keys o).
Proof.
  induction o as [|[k' v'] o IH]; simpl; [discriminate|].
  destruct (decide (k' = k)); [auto | intros H; right; apply IH, H].
Qed.

Lemma hasOwnProperty_None {V} (k : string) (o : JSObject V) :
  obj_get k o = None -> hasOwnProperty k o = false.
Proof. unfold hasOwnProperty. intros ->. reflexivity. Qed.

Section MergeLoop.
Variables (h : Heap) (base custom : loc) (bo co : JSObject loc).
Hypothesis Hbase : graphs h !! base = Some bo.
Hypothesis Hcustom : graphs h !! custom = Some co.
Hypothesis Hmg : mergeable h bo co.

Local Abbreviation merged_upto := (merged_upto h base custom bo co).

Lemma merged_upto_start : merged_upto [] h.
Proof.
  split.
  - exact Hcustom.
  - exists bo. split; [exact Hbase|]. intros k.
    destruct (obj_get k bo); [reflexivity|].
    destruct (decide (k ∈ [])) as [Hin|]; [|reflexivity].
    apply not_elem_of_nil in Hin. contradiction.
  - intros k be ce ys xs Hin. apply not_elem_of_nil in Hin. contradiction.
  - reflexivity.
  - reflexivity.
Qed.

(** An entry object the base holds under a key of the override is held
    under no other key. *)
Lemma unshared_key (k key : string) (e : loc) :
  k ∈ keys co -> obj_get k bo = Some e ->
  obj_get key bo = Some e \/ obj_get key co = Some e -> k = key.
Proof.
  intros Hk Hbo Hkey.
  destruct (decide (k = key)) as [|Hne]; [assumption|].
  destruct (mg_unshared _ _ _ Hmg k key e Hne Hbo
              (obj_get_keys k co (proj1 (list_elem_of_In _ _) Hk))) as [H1 H2].
  destruct Hkey; contradiction.
Qed.

Lemma merge_key_step (seen : list string) (hi : Heap) (key : string) :
  merged_upto seen hi -> (forall k, k ∈ seen -> k ∈ keys co) ->
  key ∉ seen -> key ∈ keys co ->
  exists hi', OrderStateMachine.merge_key base custom key hi = Ok tt hi' /\
              merged_upto (key :: seen) hi'.
Proof.
  intros [Hc (boi & Hb & Hform) Happ Hunt Hpr] Hseen Hnew Hkey.
  destruct (obj_get_keys key co (proj1 (list_elem_of_In _ _) Hkey)) as [ce Hce].
  destruct (mg_custom_allocated _ _ _ Hmg key ce Hce) as [xs Hxs].
  assert (Hfresh : forall e, obj_get key bo = Some e \/ obj_get key co = Some e ->
                             forall k, k ∈ seen -> obj_get k bo <> Some e).
  { intros e He k Hin Hk. apply Hnew.
    rewrite <- (unshared_key k key e (Hseen k Hin) Hk He). exact Hin. }
  assert (Hce_untouched : entries hi !! ce = Some xs).
  { rewrite Hunt; [exact Hxs|]. apply Hfresh. right. exact Hce. }
  assert (Hown : hasOwnProperty "hasOwnProperty" boi = false).
  { apply hasOwnProperty_None. rewrite Hform.
    destruct (mg_hasOwnProperty _ _ _ Hmg) as [-> ->].
    destruct (decide _); reflexivity. }
  unfold OrderStateMachine.merge_key. rewrite Hb, Hc, Hown.
  pose proof (Hform key) as Hkeyform.
  destruct (obj_get key bo) as [be|] eqn:Hbo.
  - (* the base has the key: append *)
    rewrite Hkeyform.
    destruct (mg_base_allocated _ _ _ Hmg key be Hbo) as [ys Hys].
    assert (Hbe : entries hi !! be = Some ys).
    { rewrite Hunt; [exact Hys|]. apply Hfresh. left. reflexivity. }
    rewrite Hbe, Hce, Hce_untouched.
    eexists. split; [reflexivity|]. split; simpl.
    + exact Hc.
    + exists boi. split; [exact Hb|]. intros k. rewrite Hform.
      destruct (obj_get k bo) eqn:Hk; [reflexivity|].
      destruct (decide (k ∈ seen)) as [Hin|Hnin];
        destruct (decide (k ∈ key :: seen)) as [Hin'|Hnin']; try reflexivity.
      * exfalso. apply Hnin'. apply elem_of_cons. right. exact Hin.
      * apply elem_of_cons in Hin' as [->|Hin']; [congruence | contradiction].
    + intros k be' ce' ys' xs' Hin Hk Hk' Hys' Hxs'.
      apply elem_of_cons in Hin as [->|Hin].
      * assert (be' = be) by congruence. subst be'.
        rewrite lookup_insert_eq. congruence.
      * rewrite lookup_insert_ne.
        -- eapply Happ; eauto.
        -- intros <-. exact (Hfresh be (or_introl eq_refl) k Hin Hk).
    + intros e He. rewrite lookup_insert_ne.
      * apply Hunt. intros k Hin. apply He. apply elem_of_cons. right. exact Hin.
      * intros <-. apply (He key); [apply elem_of_cons; left; reflexivity | exact Hbo].
    + exact Hpr.
  - (* the base lacks the key: the entry object of the override goes in *)
    rewrite Hkeyform.
    destruct (decide (key ∈ seen)) as [|_]; [contradiction|].
    rewrite Hce.
    destruct (decide (key = "__proto__")) as [->|_].
    { pose proof (mg_proto _ _ _ Hmg) as Hp. congruence. }
    assert (Hne : base <> custom).
    { intros ->. rewrite Hbase in Hcustom. injection Hcustom as ->. congruence. }
    eexists. split; [reflexivity|]. split; simpl.
    + rewrite lookup_insert_ne; [exact Hc | exact Hne].
    + exists (obj_set key ce boi). split; [apply lookup_insert_eq|].
      intros k. rewrite obj_get_set, Hform.
      destruct (decide (k = key)) as [->|Hnk].
      * rewrite Hbo. destruct (decide (key ∈ key :: seen)) as [|Hn]; [congruence|].
        exfalso. apply Hn. apply elem_of_cons. left. reflexivity.
      * destruct (obj_get k bo); [reflexivity|].
        destruct (decide (k ∈ seen)) as [Hin|Hnin];
          destruct (decide (k ∈ key :: seen)) as [Hin'|Hnin']; try reflexivity.
        -- exfalso. apply Hnin'. apply elem_of_cons. right. exact Hin.
        -- apply elem_of_cons in Hin' as [->|Hin']; [congruence | contradiction].
    + intros k be' ce' ys' xs' Hin Hk Hk' Hys' Hxs'.
      apply elem_of_cons in Hin as [->|Hin]; [congruence|].
      eapply Happ; eauto.
    + intros e He. apply Hunt. intros k Hin. apply He.
      apply elem_of_cons. right. exact Hin.
    + exact Hpr.
Qed.

Lemma merge_loop (ks seen : list string) (hi : Heap) :
  merged_upto seen hi -> NoDup (ks ++ seen) ->
  (forall k, k ∈ ks -> k ∈ keys co) -> (forall k, k ∈ seen -> k ∈ keys co) ->
  exists hi', for_of ks (OrderStateMachine.merge_key base custom) hi = Ok tt hi' /\
              merged_upto (rev ks ++ seen) hi'.
Proof.
  revert seen hi. induction ks as [|k ks IH]; intros seen hi Hinv Hnd Hks Hseen; simpl.
  - exists hi. split; [reflexivity | exact Hinv].
  - simpl in Hnd. apply NoDup_cons in Hnd as [Hk Hnd].
    destruct (merge_key_step seen hi k Hinv Hseen) as (hi1 & Hstep & Hinv1).
    + intros Hin. apply Hk. apply elem_of_app. right. exact Hin.
    + apply Hks. apply elem_of_cons. left. reflexivity.
    + destruct (IH (k :: seen) hi1 Hinv1) as (hi' & Hloop & Hinv').
      * apply NoDup_app. apply NoDup_app in Hnd as (Hn1 & Hn2 & Hn3).
        split; [exact Hn1|]. split.
        -- intros x Hx Hx'. apply elem_of_cons in Hx' as [->|Hx'].
           ++ apply Hk. apply elem_of_app. left. exact Hx.
           ++ exact (Hn2 x Hx Hx').
        -- apply NoDup_cons. split; [|exact Hn3].
           intros Hin. apply Hk. apply elem_of_app. right. exact Hin.
      * intros k' Hin. apply Hks. apply elem_of_cons. right. exact Hin.
      * intros k' Hin. apply elem_of_cons in Hin as [->|Hin].
        -- apply Hks. apply elem_of_cons. left. reflexivity.
        -- apply Hseen. exact Hin.
      * exists hi'. split.
        -- unfold bind. rewrite Hstep. exact Hloop.
        -- rewrite <- app_assoc. exact Hinv'.
Qed.

Lemma mergeTransitionDefinitions_merged :
  exists h', OrderStateMachine.mergeTransitionDefinitions base (Some custom) h
             = Ok base h' /\
             merged_upto (rev (keys co) ++ []) h'.
Proof.
  destruct (merge_loop (keys co) [] h merged_upto_start) as (h' & Hloop & Hinv).
  - rewrite app_nil_r. exact (mg_keys _ _ _ Hmg).
  - auto.
  - intros k Hin. apply not_elem_of_nil in Hin. contradiction.
  - exists h'. split; [|exact Hinv].
    unfold OrderStateMachine.mergeTransitionDefinitions, bind.
    rewrite Hcustom, Hloop. reflexivity.
Qed.

Lemma seen_all (key : string) : key ∈ rev (keys co) ++ [] <-> key ∈ keys co.
Proof.
  rewrite app_nil_r. split; intros Hin.
  - apply list_elem_of_In. apply in_rev. apply list_elem_of_In. exact Hin.
  - apply list_elem_of_In. apply in_rev. rewrite rev_involutive.
    apply list_elem_of_In. exact Hin.
Qed.

(** The merged graph at a key of the override. *)
Lemma merged_key (h' : Heap) (key : string) (ce : loc) (xs : list string) :
  merged_upto (rev (keys co) ++ []) h' ->
  obj_get key co = Some ce -> entries h !! ce = Some xs ->
  match obj_get key bo with
  | Some be =>
      exists ys, entries h !! be = Some ys /\
                 graph_to h' base key = Some (ys ++ xs)
  | None =>
      graph_entry h' base key = Some ce /\
      graph_to h' base key = Some xs
  end.
Proof.
  intros [Hc (bof & Hb & Hform) Happ Hunt Hpr] Hce Hxs.
  assert (Hseen : key ∈ rev (keys co) ++ []).
  { apply seen_all, list_elem_of_In. eapply obj_get_In_keys; eauto. }
  pose proof (Hform key) as Hk.
  destruct (obj_get key bo) as [be|] eqn:Hbo.
  - destruct (mg_base_allocated _ _ _ Hmg key be Hbo) as [ys Hys].
    exists ys. split; [exact Hys|].
    rewrite (graph_to_own h' base bof key be Hb Hk). eapply Happ; eauto.
  - destruct (decide (key ∈ rev (keys co) ++ [])); [|contradiction].
    rewrite Hce in Hk.
    unfold graph_entry. rewrite Hb. split; [exact Hk|].
    rewrite (graph_to_own h' base bof key ce Hb Hk).
    rewrite Hunt; [exact Hxs|].
    intros k Hin Hk'. apply seen_all in Hin.
    pose proof (unshared_key k key ce Hin Hk' (or_intror Hce)) as ->. congruence.
Qed.

(** Every destination list of the heap is still there after the merge,
    with something appended to it or nothing. *)
Lemma merged_entries_grow (h' : Heap) (e : loc) (ys : list string) :
  merged_upto (rev (keys co) ++ []) h' ->
  entries h !! e = Some ys ->
  exists zs, entries h' !! e = Some (ys ++ zs).
Proof.
  intros [Hc (bof & Hb & Hform) Happ Hunt Hpr] Hys.
  assert (Hdec : forall seen : list string,
             (exists k, k ∈ seen /\ obj_get k bo = Some e) \/
             (forall k, k ∈ seen -> obj_get k bo <> Some e)).
  { induction seen as [|k seen IH].
    - right. intros k Hin. apply not_elem_of_nil in Hin. contradiction.
    - destruct (decide (obj_get k bo = Some e)) as [Hk|Hk].
      + left. exists k. split; [apply elem_of_cons; left; reflexivity | exact Hk].
      + destruct IH as [(k' & Hin & Hk')|IH].
        * left. exists k'. split; [apply elem_of_cons; right; exact Hin | exact Hk'].
        * right. intros k' Hin. apply elem_of_cons in Hin as [->|Hin]; auto. }
  destruct (Hdec (rev (keys co) ++ [])) as [(k & Hin & Hk)|Hnone].
  - destruct (obj_get_keys k co (proj1 (list_elem_of_In _ _) (proj1 (seen_all k) Hin)))
      as [ce Hce].
    destruct (mg_custom_allocated _ _ _ Hmg k ce Hce) as [xs Hxs].
    exists xs. eapply Happ; eauto.
  - exists []. rewrite app_nil_r, (Hunt e Hnone). exact Hys.
Qed.

End MergeLoop.

(** C8, as the code has it: merging an override graph into a base graph,
    where no entry object that the merge writes to is held under a second
    key, no key is [hasOwnProperty] and the override has no key
    [__proto__]: for every key of the override, if the base has the key,
    the merged graph's destination list for it is the base's list followed
    by the override's list; if the base lacks the key, the merged graph
    holds the override's entry object under it. The override may be the
    one of an earlier merge, or share entry objects with the base under
    the same keys. *)
Theorem mergeTransitionDefinitions_appends (h : Heap) (base custom : loc)
    (bo co : JSObject loc) :
  graphs h !! base = Some bo ->
  graphs h !! custom = Some co ->
  mergeable h bo co ->
  exists h',
    OrderStateMachine.mergeTransitionDefinitions base (Some custom) h = Ok base h' /\
    forall key ce xs,
      obj_get key co = Some ce -> entries h !! ce = Some xs ->
      match obj_get key bo with
      | Some be =>
          exists ys, entries h !! be = Some ys /\
                     graph_to h' base key = Some (ys ++ xs)
      | None =>
          graph_entry h' base key = Some ce /\
          graph_to h' base key = Some xs
      end.
Proof.
  intros Hbase Hcustom Hmg.
  destruct (mergeTransitionDefinitions_merged h base custom bo co Hbase Hcustom Hmg)
    as (h' & Hrun & Hinv).
  exists h'. split; [exact Hrun|].
  intros key ce xs Hce Hxs.
  exact (merged_key h base custom bo co Hmg h' key ce xs Hinv Hce Hxs).
Qed.

(** C8 as stated fails. Where the base holds one entry object under two
    keys, what is appended for one key shows under the other: merging
    [{ A: { to: [X] }, B: { to: [Z] } }] into [{ A: e, B: e }] with
    [e = { to: [Y] }] leaves [[Y; X; Z]] for [A], not [[Y; X]]. An
    override with a state named [hasOwnProperty] is not merged at all:
    once that key is in the base, the next step of the loop raises a
    [TypeError]; and so does the first step where the base has such a
    state itself. For the key [__proto__] of an override nothing is
    inserted: the base has the keys it had, and the entry object has
    become its prototype. *)
Lemma mergeTransitionDefinitions_does_not_append :
  (exists h',
      OrderStateMachine.mergeTransitionDefinitions 0%nat (Some 1%nat) Sample.shared_entry
        = Ok 0%nat h' /\
      graph_to Sample.shared_entry 0%nat "A" = Some ["Y"] /\
      graph_to Sample.shared_entry 1%nat "A" = Some ["X"] /\
      graph_to h' 0%nat "A" = Some ["Y"; "X"; "Z"]) /\
  (exists h',
      OrderStateMachine.mergeTransitionDefinitions 0%nat (Some 1%nat) Sample.shadowing
        = Throw TypeError h' /\
      graph_to h' 0%nat "Z" = None) /\
  (exists h',
      OrderStateMachine.mergeTransitionDefinitions 0%nat (Some 1%nat) Sample.shadowed_base
        = Throw TypeError h' /\
      graph_to h' 0%nat "S" = None) /\
  (exists h',
      OrderStateMachine.mergeTransitionDefinitions 0%nat (Some 1%nat) Sample.proto_key
        = Ok 0%nat h' /\
      graph_entry h' 0%nat "__proto__" = None /\
      graphs h' !! 0%nat = graphs Sample.proto_key !! 0%nat /\
      protos h' !! 0%nat = Some 20%nat).
Proof.
  repeat split; eexists; repeat split; vm_compute; reflexivity.
Qed.

(** ** Properties of the adapter *)

(** Splits on whatever the goal still branches on. *)
Ltac split_run :=
  repeat (simplify_eq/=;
          match goal with
          | H : context [match ?x with _ => _ end] |- _ => destruct x eqn:?
          | |- context [match ?x with _ => _ end] => destruct x eqn:?
          end);
  simplify_eq/=.

Section AdapterProperties.
Import OrderStateMachine.
Context {Ext RequestContext : Type}.
Variable now : Ext -> nat.
Variable orderStateTransitions : loc.
Implicit Types (inj : Injected Ext RequestContext)
               (w : AdapterWorld Ext RequestContext)
               (p : list (Call RequestContext) * Store Ext).

Lemma mergeTransitionDefinitions_returns (d : loc) (c : option loc) (h h' : Heap)
    (l : loc) :
  mergeTransitionDefinitions d c h = Ok l h' -> l = d.
Proof.
  unfold mergeTransitionDefinitions. destruct c as [c|].
  - unfold bind. destruct (graphs h !! c); [|discriminate].
    destruct (for_of _ _ h); [|discriminate].
    unfold ret. congruence.
  - unfold ret. congruence.
Qed.

(** Every instance the constructor returns is [built]. *)
Lemma new_OrderStateMachine_built inj (h h' : Heap)
    (this : OrderStateMachine Ext RequestContext) :
  new_OrderStateMachine now orderStateTransitions inj h = Ok this h' ->
  this = built now orderStateTransitions inj.
Proof.
  unfold new_OrderStateMachine, initConfig, bind.
  destruct (mergeTransitionDefinitions _ _ h) as [l h1|] eqn:Hm; [|discriminate].
  apply mergeTransitionDefinitions_returns in Hm. subst l.
  unfold ret. intros [= <- _]. reflexivity.
Qed.

Lemma chosen_onTransitionError_order inj (fromState toState : string)
    (message : option string) p :
  order (snd (final (chosen_onTransitionError inj fromState toState message p)))
  = order (snd p).
Proof.
  destruct p as [cs s].
  unfold chosen_onTransitionError, bind, report, modify, detached, zoom,
    unawaited_detached, float, await, ret.
  split_run; reflexivity.
Qed.

(** The composed error handler never returns, and leaves the order as it
    found it. *)
Lemma config_onError_raises inj (fromState toState : string)
    (message : option string) p :
  let r := config_onError inj fromState toState message p in
  returned r = false /\ order (snd (final r)) = order (snd p).
Proof.
  simpl. unfold config_onError, bind, throw.
  pose proof (chosen_onTransitionError_order inj fromState toState message p) as Ho.
  destruct (chosen_onTransitionError inj fromState toState message p); simpl in *;
    split; auto.
Qed.

Lemma chosen_onTransitionStart_keeps_state inj (fromState toState : string)
    (data : OrderTransitionData RequestContext) p :
  guards_keep_state inj ->
  state (order (snd (final (chosen_onTransitionStart inj fromState toState data p))))
  = state (order (snd p)).
Proof.
  intros Hframe. destruct p as [cs s].
  unfold chosen_onTransitionStart, bind, report, modify, with_order, zoom, ret.
  destruct (OrderProcessStrategy.onTransitionStart
              (orderProcessStrategy (orderOptions (configService inj))))
    as [f|] eqn:Hs; simpl.
  - specialize (Hframe f (or_introl Hs) fromState toState data (order s) (ext s)).
    destruct (f fromState toState data (order s, ext s)) as [v [o e]|x [o e]];
      simpl in *; exact Hframe.
  - destruct (OrderProcessStrategy.onTransitionStart
                (process (orderOptions (configService inj))))
      as [f|] eqn:Hp; simpl; [|reflexivity].
    specialize (Hframe f (or_intror Hp) fromState toState data (order s) (ext s)).
    destruct (f fromState toState data (order s, ext s)) as [v [o e]|x [o e]];
      simpl in *; exact Hframe.
Qed.

(** The build-in rule reads the order and writes nothing. *)
Lemma onTransitionStart_pure (fromState toState : string)
    (data : OrderTransitionData RequestContext) p :
  exists v, @onTransitionStart Ext RequestContext fromState toState data p = Ok v p.
Proof.
  destruct p as [cs s].
  unfold onTransitionStart, bind, the_order, gets, ret. simpl.
  split_run; eexists; reflexivity.
Qed.

Lemma config_onTransitionStart_keeps_state inj (fromState toState : string)
    (data : OrderTransitionData RequestContext) p :
  guards_keep_state inj ->
  state (order (snd (final (config_onTransitionStart inj fromState toState data p))))
  = state (order (snd p)).
Proof.
  intros Hframe.
  pose proof (chosen_onTransitionStart_keeps_state inj fromState toState data p Hframe)
    as Hc.
  unfold config_onTransitionStart, bind.
  destruct (chosen_onTransitionStart inj fromState toState data p)
    as [v p1|e p1]; simpl in *; [|exact Hc].
  destruct (onTransitionStart_pure fromState toState data p1) as [v' Hb].
  destruct v as [[|]|m|]; simpl; try exact Hc; rewrite Hb; exact Hc.
Qed.

(** A rejected transition through the adapter raises, and the adapter
    writes nothing to the order. *)
Lemma transition_rejected inj (c : RequestContext) (target : string) w
    (message : option string) w1 :
  Rejection (engine_of now orderStateTransitions inj w) w target
            {| ctx := c |} message w1 ->
  let r := transition (built now orderStateTransitions inj) c target w in
  returned r = false /\
  order (FiniteStateMachine.user (final r)) = order (FiniteStateMachine.user w1) /\
  exists calls,
    FiniteStateMachine.history (final r) =
      FiniteStateMachine.history w1
        ++ FiniteStateMachine.EvOnError (state (order (FiniteStateMachine.user w)))
             target message
        :: map FiniteStateMachine.EvUser calls.
Proof.
  intros Hrej. apply transitionTo_Rejected in Hrej.
  destruct Hrej as (_ & _ & Hh). simpl in Hh. destruct Hh as (Hw & Hret).
  pose proof (config_onError_raises inj (state (order (FiniteStateMachine.user w)))
                target message ([], FiniteStateMachine.user w1)) as [Hr Ho].
  simpl in Hr, Ho.
  unfold transition, attempt. unfold engine_of in Hw, Hret. simpl in Hw, Hret.
  destruct (FiniteStateMachine.transitionTo target {| ctx := c |} _)
    as [[] [f' w']|e [f' w']]; simpl in *.
  - rewrite Hr in Hret. discriminate.
  - subst w'. simpl. split; [reflexivity|]. split; [exact Ho|].
    eexists. reflexivity.
Qed.

Lemma Rejection_keeps_state inj (c : RequestContext) (target : string) w
    (message : option string) w1 :
  guards_keep_state inj ->
  Rejection (engine_of now orderStateTransitions inj w) w target
            {| ctx := c |} message w1 ->
  state (order (FiniteStateMachine.user w1)) = state (order (FiniteStateMachine.user w)).
Proof.
  intros Hframe Hrej.
  destruct Hrej as [Hcan | guard us s Hcan Hguard Hrun
                    | guard us s m Hcan Hguard Hrun]; [reflexivity| |];
    simpl in Hguard; injection Hguard as <-;
    pose proof (config_onTransitionStart_keeps_state inj
                  (state (order (FiniteStateMachine.user w))) target {| ctx := c |}
                  ([], FiniteStateMachine.user w) Hframe) as Hk;
    simpl in Hrun; rewrite Hrun in Hk; exact Hk.
Qed.

(** A transition through the adapter that returns went through a commit
    of the engine, and the composed end hook returned. *)
Lemma transition_returned inj (c : RequestContext) (target : string) w w2 :
  transition (built now orderStateTransitions inj) c target w = Ok tt w2 ->
  exists w1,
    Proceeds (engine_of now orderStateTransitions inj w) w target {| ctx := c |} w1 /\
    let fromState := state (order (FiniteStateMachine.user w)) in
    let r' := config_onTransitionEnd now inj fromState target {| ctx := c |}
                ([], FiniteStateMachine.user w1) in
    returned r' = true /\
    FiniteStateMachine._currentState
      (fst (final (attempt (built now orderStateTransitions inj) c target w))) = target /\
    returned (attempt (built now orderStateTransitions inj) c target w) = true /\
    w2 = write_state target
           (after_callback w1
              [FiniteStateMachine.EvCommit fromState target;
               FiniteStateMachine.EvOnTransitionEnd fromState target target]
              (fst (final r')) (snd (final r'))).
Proof.
  intros Hok.
  pose proof (transitionTo_cases (engine_of now orderStateTransitions inj w) w target
                {| ctx := c |}) as Hcases. cbv zeta in Hcases.
  unfold transition in Hok.
  destruct (attempt (built now orderStateTransitions inj) c target w)
    as [[] [f' w']|e [f' w']] eqn:Ha; [|discriminate].
  injection Hok as <-.
  destruct Hcases as [Ht | [(g & e & us & s & _ & _ & Ht) | [(m & w1 & Hrej) | (w1 & Hp)]]].
  - pose proof (eq_trans (eq_sym Ht) Ha). discriminate.
  - pose proof (eq_trans (eq_sym Ht) Ha). discriminate.
  - pose proof (transition_rejected inj c target w m w1 Hrej) as (Hr & _).
    unfold transition in Hr. rewrite Ha in Hr. discriminate.
  - exists w1. split; [exact Hp|].
    pose proof (transitionTo_Proceeds _ _ _ _ _ Hp) as Heq.
    pose proof (eq_trans (eq_sym Heq) Ha) as Hcm.
    pose proof (commit_spec (engine_of now orderStateTransitions inj w) w1 target
                  {| ctx := c |}) as Hc.
    simpl in Hc. rewrite Hcm in Hc. simpl in Hc. destruct Hc as (Hthis & Hw & Hret).
    subst f' w'. simpl.
    repeat split; auto.
Qed.

Lemma config_onError_IllegalOperationError inj (fromState toState : string)
    (message : option string) cs (s : Store Ext) p' :
  ErrorHookReturns inj fromState toState message cs s p' ->
  config_onError inj fromState toState message (cs, s) =
    Throw (IllegalOperationError (message_or_default message) fromState toState) p'.
Proof.
  intros [f r e1 e2 Hs Hf Haw | f r e1 Hs Hp Hf | Hs Hp];
    unfold config_onError, chosen_onTransitionError, bind, report, modify,
      detached, zoom, throw; rewrite Hs; simpl.
  - unfold bind. rewrite Hf, Haw. reflexivity.
  - rewrite Hp. simpl. rewrite Hf. simpl.
    destruct r; reflexivity.
  - rewrite Hp. reflexivity.
Qed.

Lemma chosen_onTransitionStart_ChosenGuard inj (fromState toState : string)
    (data : OrderTransitionData RequestContext) cs (s : Store Ext) v p1 :
  ChosenGuard inj fromState toState data cs s v p1 ->
  chosen_onTransitionStart inj fromState toState data (cs, s) = Ok v p1.
Proof.
  intros [f v' o e Hs Hf | f v' o e Hs Hp Hf | Hs Hp];
    unfold chosen_onTransitionStart, bind, report, modify, with_order, zoom;
    rewrite Hs; simpl.
  - rewrite Hf. reflexivity.
  - rewrite Hp. simpl. rewrite Hf. reflexivity.
  - rewrite Hp. reflexivity.
Qed.

Lemma config_onTransitionStart_after_chosen inj (fromState toState : string)
    (data : OrderTransitionData RequestContext) cs (s : Store Ext) v p1 :
  ChosenGuard inj fromState toState data cs s v p1 ->
  config_onTransitionStart inj fromState toState data (cs, s) =
    match v with
    | RBool false | RString _ => Ok v p1
    | _ => onTransitionStart fromState toState data p1
    end.
Proof.
  intros Hc. apply chosen_onTransitionStart_ChosenGuard in Hc.
  unfold config_onTransitionStart, bind. rewrite Hc.
  destruct v as [[|]|m|]; reflexivity.
Qed.

Lemma chosen_onTransitionStart_calls inj (fromState toState : string)
    (data : OrderTransitionData RequestContext) cs (s : Store Ext) :
  exists pre,
    fst (final (chosen_onTransitionStart inj fromState toState data (cs, s)))
      = cs ++ pre /\
    (pre = [] \/ pre = [StrategyOnTransitionStart fromState toState] \/
     pre = [ProcessOnTransitionStart fromState toState]).
Proof.
  unfold chosen_onTransitionStart, bind, report, modify, with_order, zoom, ret.
  split_run; eexists; (split; [try reflexivity; symmetry; apply app_nil_r|]); auto.
Qed.

Lemma config_onTransitionStart_calls inj (fromState toState : string)
    (data : OrderTransitionData RequestContext) cs (s : Store Ext) :
  exists pre,
    fst (final (config_onTransitionStart inj fromState toState data (cs, s)))
      = cs ++ pre /\
    (pre = [] \/ pre = [StrategyOnTransitionStart fromState toState] \/
     pre = [ProcessOnTransitionStart fromState toState]).
Proof.
  destruct (chosen_onTransitionStart_calls inj fromState toState data cs s)
    as (pre & Hpre & Hform).
  exists pre. split; [|exact Hform].
  unfold config_onTransitionStart, bind.
  destruct (chosen_onTransitionStart inj fromState toState data (cs, s))
    as [v p1|e p1]; simpl in *; [|exact Hpre].
  destruct (onTransitionStart_pure fromState toState data p1) as [v' Hb].
  destruct v as [[|]|m|]; simpl; try exact Hpre; rewrite Hb; exact Hpre.
Qed.

Lemma chosen_onTransitionEnd_calls inj (fromState toState : string)
    (data : OrderTransitionData RequestContext) cs (s : Store Ext) :
  exists pre,
    fst (final (chosen_onTransitionEnd inj fromState toState data (cs, s)))
      = cs ++ pre /\
    (pre = [] \/ pre = [StrategyOnTransitionEnd fromState toState] \/
     pre = [ProcessOnTransitionEnd fromState toState]).
Proof.
  unfold chosen_onTransitionEnd, bind, report, modify, with_order, zoom, ret,
    unawaited, float, await.
  split_run; eexists; (split; [try reflexivity; symmetry; apply app_nil_r|]); auto.
Qed.






Lemma config_onError_outcome inj (fromState toState : string)
    (message : option string) cs (s : Store Ext) (outcome : option Exn) p' :
  ErrorHookOutcome inj fromState toState message cs s outcome p' ->
  config_onError inj fromState toState message (cs, s) =
    Throw (raised_after outcome fromState toState message) p'.
Proof.
  intros [p'' Hret | f e e1 Hs Hf | f r e1 e e2 Hs Hf Haw | f e e1 Hs Hp Hf].
  - apply config_onError_IllegalOperationError. exact Hret.
  - unfold config_onError, chosen_onTransitionError, bind, report, modify,
      detached, zoom, throw. rewrite Hs. simpl. unfold bind. rewrite Hf. reflexivity.
  - unfold config_onError, chosen_onTransitionError, bind, report, modify,
      detached, zoom, throw. rewrite Hs. simpl. unfold bind. rewrite Hf, Haw.
    reflexivity.
  - unfold config_onError, chosen_onTransitionError, bind, report, modify,
      detached, zoom, throw. rewrite Hs, Hp. simpl. rewrite Hf. reflexivity.
Qed.

(** The composed error handler always ends in one of these outcomes. *)
Lemma ErrorHookOutcome_total inj (fromState toState : string)
    (message : option string) cs (s : Store Ext) :
  exists outcome p', ErrorHookOutcome inj fromState toState message cs s outcome p'.
Proof.
  destruct (OrderProcessStrategy.onTransitionError
              (orderProcessStrategy (orderOptions (configService inj))))
    as [f|] eqn:Hs.
  - destruct (f fromState toState message (ext s)) as [r e1|e e1] eqn:Hf.
    + destruct (await r e1) as [[] e2|e e2] eqn:Haw.
      * do 2 eexists. apply HookReturned. eapply StrategyErrorHook; eassumption.
      * do 2 eexists. eapply StrategyHookRejected; eassumption.
    + do 2 eexists. eapply StrategyHookRaised; eassumption.
  - destruct (OrderProcessStrategy.onTransitionError
                (process (orderOptions (configService inj)))) as [f|] eqn:Hp.
    + destruct (f fromState toState message (ext s)) as [r e1|e e1] eqn:Hf.
      * do 2 eexists. apply HookReturned. eapply ProcessErrorHook; eassumption.
      * do 2 eexists. eapply ProcessHookRaised; eassumption.
    + do 2 eexists. apply HookReturned. apply NoErrorHook; assumption.
Qed.

Lemma transition_final inj (c : RequestContext) (target : string) w :
  let a := attempt (built now orderStateTransitions inj) c target w in
  let r := transition (built now orderStateTransitions inj) c target w in
  returned r = returned a /\
  FiniteStateMachine.heap (final r) = FiniteStateMachine.heap (snd (final a)) /\
  (returned a = false -> final r = snd (final a)) /\
  (returned a = true -> final r = write_state target (snd (final a))).
Proof.
  simpl. unfold transition.
  destruct (attempt (built now orderStateTransitions inj) c target w)
    as [[] [f' w']|e [f' w']]; simpl; repeat split; auto; discriminate.
Qed.

(** A transition through the adapter on which the engine raises before
    any callback, or on which the guard raises. *)
Lemma transition_raises_early inj (c : RequestContext) (target : string) w :
  let this := engine_of now orderStateTransitions inj w in
  let fromState := state (order (FiniteStateMachine.user w)) in
  let r := transition (built now orderStateTransitions inj) c target w in
  (FiniteStateMachine.canTransitionTo target (this, w) = Throw TypeError (this, w) ->
   r = Throw TypeError w) /\
  (forall e us s,
     FiniteStateMachine.canTransitionTo target (this, w) = Ok true (this, w) ->
     config_onTransitionStart inj fromState target {| ctx := c |}
       ([], FiniteStateMachine.user w) = Throw e (us, s) ->
     r = Throw e (after_callback w
                    [FiniteStateMachine.EvOnTransitionStart fromState target] us s)).
Proof.
  intros this fromState r. subst r. split.
  - intros Hcan.
    assert (Ha : attempt (built now orderStateTransitions inj) c target w
                 = Throw TypeError (this, w)).
    { change (FiniteStateMachine.transitionTo target {| ctx := c |} (this, w)
              = Throw TypeError (this, w)).
      unfold FiniteStateMachine.transitionTo, bind. rewrite Hcan. reflexivity. }
    unfold transition. rewrite Ha. reflexivity.
  - intros e us s Hcan Hrun.
    assert (Ha : attempt (built now orderStateTransitions inj) c target w
                 = Throw e (this, after_callback w
                                    [FiniteStateMachine.EvOnTransitionStart fromState target]
                                    us s)).
    { change (FiniteStateMachine.transitionTo target {| ctx := c |} (this, w) = 
              Throw e (this, after_callback w
                               [FiniteStateMachine.EvOnTransitionStart fromState target]
                               us s)).
      exact (transitionTo_guard_raises this w target {| ctx := c |}
               (config_onTransitionStart inj) e us s Hcan eq_refl Hrun). }
    unfold transition. rewrite Ha. reflexivity.
Qed.

(** Without a commit of the engine the [state] field is as it was,
    however the call ended. *)
Lemma transition_uncommitted inj (c : RequestContext) (target : string) w :
  guards_keep_state inj ->
  let r := transition (built now orderStateTransitions inj) c target w in
  Forall (fun ev => is_commit ev = false) (since w (final r)) ->
  state (order (FiniteStateMachine.user (final r)))
  = state (order (FiniteStateMachine.user w)).
Proof.
  intros Hframe r Hnone.
  destruct (transition_raises_early inj c target w) as [Htype Hguard].
  destruct (transitionTo_cases (engine_of now orderStateTransitions inj w) w target
              {| ctx := c |})
    as [Ht | [(g & e & us & s & Hg & Hrun & Ht) | [(m & w1 & Hrej) | (w1 & Hp)]]].
  - assert (Hr : r = Throw TypeError w).
    { unfold r, transition.
      rewrite (Ht : attempt (built now orderStateTransitions inj) c target w = _).
      reflexivity. }
    rewrite Hr. reflexivity.
  - assert (Hr : r = Throw e (after_callback w
                               [FiniteStateMachine.EvOnTransitionStart
                                  (state (order (FiniteStateMachine.user w))) target]
                               us s)).
    { unfold r, transition.
      rewrite (Ht : attempt (built now orderStateTransitions inj) c target w = _).
      reflexivity. }
    rewrite Hr. simpl. simpl in Hg. injection Hg as <-.
    pose proof (config_onTransitionStart_keeps_state inj
                  (state (order (FiniteStateMachine.user w))) target {| ctx := c |}
                  ([], FiniteStateMachine.user w) Hframe) as Hk.
    simpl in Hrun. rewrite Hrun in Hk. exact Hk.
  - destruct (transition_rejected inj c target w m w1 Hrej) as (_ & Ho & _).
    fold r in Ho. rewrite Ho.
    exact (Rejection_keeps_state inj c target w m w1 Hframe Hrej).
  - exfalso.
    destruct (Proceeds_history _ _ _ _ _ Hp) as (evs & Hh & _).
    pose proof (transitionTo_Proceeds _ _ _ _ _ Hp) as Heq.
    pose proof (commit_spec (engine_of now orderStateTransitions inj w) w1 target
                  {| ctx := c |}) as Hc.
    cbv zeta in Hc. simpl in Hc. destruct Hc as (_ & Hw & _).
    destruct (transition_final inj c target w) as (_ & _ & Hthrow & Hok).
    cbv zeta in Hthrow, Hok. fold r in Hthrow, Hok.
    assert (Ha : snd (final (attempt (built now orderStateTransitions inj) c target w))
                 = _)
      by (etransitivity; [exact (f_equal (fun x => snd (final x)) Heq) | exact Hw]).
    assert (Hcommit : exists rest,
               since w (final r) =
                 evs ++ FiniteStateMachine.EvCommit
                          (state (order (FiniteStateMachine.user w))) target :: rest).
    { destruct (returned (attempt (built now orderStateTransitions inj) c target w)).
      - rewrite (Hok eq_refl), Ha. unfold since. simpl.
        rewrite Hh, <- !app_assoc, drop_app_length. simpl. eexists. reflexivity.
      - rewrite (Hthrow eq_refl), Ha. unfold since. simpl.
        rewrite Hh, <- !app_assoc, drop_app_length. simpl. eexists. reflexivity. }
    destruct Hcommit as (rest & Hsince). rewrite Hsince in Hnone.
    apply Forall_app in Hnone as [_ Hnone].
    apply Forall_cons in Hnone as [Hcm _]. discriminate.
Qed.

(** What the built-in end hook has done when it returns. *)
Lemma onTransitionEnd_runs inj (fromState toState : string)
    (data : OrderTransitionData RequestContext) cs (s : Store Ext) cs' s' :
  onTransitionEnd now inj fromState toState data (cs, s) = Ok tt (cs', s') ->
  exists mid,
    cs' = cs ++ mid /\
    built_in_effects now inj fromState toState (ctx data) s s' mid.
Proof.
  unfold onTransitionEnd, built_in_effects, is_payment_state.
  destruct (decide (toState = "PaymentAuthorized" \/ toState = "PaymentSettled"))
    as [Hpay|Hnpay].
  - destruct (decide (toState = "Cancelled")) as [->|_];
      [destruct Hpay; discriminate|].
    unfold bind, update_order, modify, gets, report, with_order, the_order,
      detached, zoom, ret. simpl.
    destruct (createSalesForOrder (stockMovementService inj) _) as [[] [o1 e1]|] eqn:H1;
      simpl; [|discriminate].
    destruct (addPromotionsToOrder (promotionService inj) _) as [[] [o2 e2]|] eqn:H2;
      simpl; [|discriminate].
    match goal with
    | |- context [createHistoryEntryForOrder ?hs ?a ?e] =>
        destruct (createHistoryEntryForOrder hs a e) as [[] e3|] eqn:H3
    end; simpl; [|discriminate].
    intros [= <- <-].
    eexists. split; [rewrite <- !app_assoc; reflexivity|].
    split; [intros _ | intros Hn; contradiction].
    exists o1, e1, o2, e2, e3.
    split; [exact H1|]. split; [exact H2|]. split; [exact H3|].
    split; reflexivity.
  - unfold bind, update_order, modify, gets, report, with_order, the_order,
      detached, zoom, ret.
    destruct (decide (toState = "Cancelled")) as [Hc|Hnc]; simpl;
      match goal with
      | |- context [createHistoryEntryForOrder ?hs ?a ?e] =>
          destruct (createHistoryEntryForOrder hs a e) as [[] e3|] eqn:H3
      end; simpl; try discriminate;
      intros [= <- <-]; eexists; (split; [reflexivity|]);
      (split; [intros Hp; contradiction | intros _]);
      unfold history_only.
    + rewrite decide_True by exact Hc.
      eexists. split; [exact H3|]. split; reflexivity.
    + rewrite decide_False by exact Hnc.
      eexists. split; [exact H3|]. split; reflexivity.
Qed.

Lemma entrance_impl inj (c : RequestContext) (target : string) w w2
    (P Q : Store Ext -> Store Ext -> list (Call RequestContext) -> Prop) :
  (forall s s' mid, P s s' mid -> Q s s' mid) ->
  entrance now orderStateTransitions inj c target w w2 P ->
  entrance now orderStateTransitions inj c target w w2 Q.
Proof.
  intros HPQ (wg & pre & s1 & s2 & mid & Hp & Hch & Heff & Hu & Hh).
  exists wg, pre, s1, s2, mid. auto.
Qed.

(** Every transition through the adapter that returned is an
    [entrance]. *)
Lemma transition_entrance inj (c : RequestContext) (target : string) w w2 :
  transition (built now orderStateTransitions inj) c target w = Ok tt w2 ->
  entrance now orderStateTransitions inj c target w w2
    (built_in_effects now inj (state (order (FiniteStateMachine.user w))) target c).
Proof.
  intros Hok.
  destruct (transition_returned inj c target w w2 Hok)
    as (wg & Hp & Hret & _ & _ & Hw2).
  cbv zeta in Hret, Hw2.
  unfold config_onTransitionEnd, bind in Hret, Hw2.
  destruct (chosen_onTransitionEnd inj (state (order (FiniteStateMachine.user w)))
              target {| ctx := c |} ([], FiniteStateMachine.user wg))
    as [[] [pre s1]|e p1] eqn:Hch; simpl in Hret; [|discriminate].
  destruct (onTransitionEnd now inj (state (order (FiniteStateMachine.user w)))
              target {| ctx := c |} (pre, s1))
    as [[] [cs2 s2]|e p2] eqn:Hb; simpl in Hret; [|discriminate].
  destruct (onTransitionEnd_runs inj _ _ _ _ _ _ _ Hb) as (mid & -> & Heff).
  exists wg, pre, s1, s2, mid.
  split; [exact Hp|]. split; [exact Hch|]. split; [exact Heff|].
  subst w2. simpl. split; [reflexivity|].
  rewrite !map_app. simpl. rewrite <- !app_assoc. simpl. rewrite <- !app_assoc.
  reflexivity.
Qed.

End AdapterProperties.

(** C1: through the adapter's [transition(ctx, order, state)], the order's
    [state] is written only after the engine's [currentState] advanced to
    the target: whenever the call returns, the engine had returned with
    [currentState] equal to the target. Whenever the transition is
    rejected (illegal target, or the guard resolved to [false] or to a
    string), the call raises and the adapter has written nothing: the order
    is as it was when the rejection was decided, and, the guard hooks not
    writing the [state] field themselves, its [state] is the one it had
    before the call. So it is on every other way out: the call returns
    exactly when the engine does, and when the engine raises, for whatever
    reason, the call ends in the world the engine left, nothing written.
    Where the graph has no destination list for the order's state the
    call raises a [TypeError] in the world it started in; where the guard
    raises, the call raises the guard's exception in the world the guard
    left. And whenever the engine has made no commit, the [state] field is
    the one the order had before the call. *)
Theorem transition_writes_only_after_advance {Ext RequestContext : Type}
    (now : Ext -> nat) (orderStateTransitions : loc)
    (inj : OrderStateMachine.Injected Ext RequestContext)
    (c : RequestContext) (target : string)
    (w : OrderStateMachine.AdapterWorld Ext RequestContext) :
  let this := built now orderStateTransitions inj in
  let r := OrderStateMachine.transition this c target w in
  let a := OrderStateMachine.attempt this c target w in
  let fromState :=
    OrderStateMachine.state (OrderStateMachine.order (FiniteStateMachine.user w)) in
  (forall w', r = Ok tt w' ->
     returned a = true /\
     FiniteStateMachine._currentState (fst (final a)) = target /\
     OrderStateMachine.state
       (OrderStateMachine.order (FiniteStateMachine.user w')) = target) /\
  (forall message w1,
     Rejection (engine_of now orderStateTransitions inj w) w target
               {| OrderStateMachine.ctx := c |} message w1 ->
     returned r = false /\
     OrderStateMachine.order (FiniteStateMachine.user (final r))
       = OrderStateMachine.order (FiniteStateMachine.user w1) /\
     (guards_keep_state inj ->
      OrderStateMachine.state
        (OrderStateMachine.order (FiniteStateMachine.user (final r)))
      = OrderStateMachine.state
          (OrderStateMachine.order (FiniteStateMachine.user w)))) /\
  returned r = returned a /\
  (returned a = false -> final r = snd (final a)) /\
  (FiniteStateMachine.canTransitionTo target
     (engine_of now orderStateTransitions inj w, w)
   = Throw TypeError (engine_of now orderStateTransitions inj w, w) ->
   r = Throw TypeError w) /\
  (forall e us s,
     FiniteStateMachine.canTransitionTo target
       (engine_of now orderStateTransitions inj w, w)
     = Ok true (engine_of now orderStateTransitions inj w, w) ->
     OrderStateMachine.config_onTransitionStart inj fromState target
       {| OrderStateMachine.ctx := c |} ([], FiniteStateMachine.user w)
     = Throw e (us, s) ->
     r = Throw e (after_callback w
                    [FiniteStateMachine.EvOnTransitionStart fromState target] us s)) /\
  (guards_keep_state inj ->
   Forall (fun ev => is_commit ev = false) (since w (final r)) ->
   OrderStateMachine.state (OrderStateMachine.order (FiniteStateMachine.user (final r)))
   = fromState).
Proof.
  intros this r a fromState.
  destruct (transition_final now orderStateTransitions inj c target w)
    as (Hret & _ & Hthrow & _).
  destruct (transition_raises_early now orderStateTransitions inj c target w)
    as [Htype Hguard].
  split; [|split; [|split; [exact Hret|split; [exact Hthrow|split;
    [exact Htype|split; [exact Hguard|]]]]]].
  - intros w' Hok.
    destruct (transition_returned now orderStateTransitions inj c target w w' Hok)
      as (w1 & _ & _ & Hcur & Hr & ->).
    repeat split; assumption.
  - intros message w1 Hrej.
    destruct (transition_rejected now orderStateTransitions inj c target w message w1 Hrej)
      as (Hr & Ho & _).
    split; [exact Hr|]. split; [exact Ho|].
    intros Hframe. subst r this. rewrite Ho.
    eapply Rejection_keeps_state; eauto.
  - intros Hframe Hnone.
    exact (transition_uncommitted now orderStateTransitions inj c target w Hframe Hnone).
Qed.

(** C7, as the code has it: on a rejection routed to the adapter's error
    handler, the handler first invokes the strategy's error hook if there
    is one, otherwise the error hook of the process options; when that
    hook comes back without raising, or there is none, the handler raises
    an [IllegalOperationError] carrying [fromState] and [toState] and the
    message of the guard, or [error.cannot-transition-order-from-to] when
    there is no message or an empty one; when the hook raises, the handler
    raises the hook's exception; there is no other way for it to end.
    The engine itself never raises on a rejection: if [transitionTo]
    raises on one, a configured error handler raised. *)
Theorem onError_wrapper_spec {Ext RequestContext : Type}
    (inj : OrderStateMachine.Injected Ext RequestContext)
    (fromState toState : string) (message : option string)
    (cs : list (OrderStateMachine.Call RequestContext))
    (s : OrderStateMachine.Store Ext) (outcome : option Exn)
    (p' : list (OrderStateMachine.Call RequestContext) * OrderStateMachine.Store Ext) :
  ErrorHookOutcome inj fromState toState message cs s outcome p' ->
  OrderStateMachine.config_onError inj fromState toState message (cs, s) =
    Throw (match outcome with
           | Some e => e
           | None => IllegalOperationError
                       (OrderStateMachine.message_or_default message)
                       fromState toState
           end) p' /\
  (forall cs0 s0, exists outcome0 q,
      ErrorHookOutcome inj fromState toState message cs0 s0 outcome0 q) /\
  (forall m, message = Some m -> m <> "" ->
             OrderStateMachine.message_or_default message = m) /\
  (message = None \/ message = Some "" ->
   OrderStateMachine.message_or_default message
     = "error.cannot-transition-order-from-to") /\
  (forall (St U Data : Type) (this : FiniteStateMachine.FSM St U Data)
          (w w1 : FiniteStateMachine.World St U) (state : string) (data : Data)
          (msg : option string),
      Rejection this w state data msg w1 ->
      returned (FiniteStateMachine.transitionTo state data (this, w)) = false ->
      exists handler,
        FiniteStateMachine.onError (FiniteStateMachine.config this) = Some handler /\
        returned (handler (FiniteStateMachine._currentState this) state msg
                    ([], FiniteStateMachine.user w1)) = false).
Proof.
  intros Hhook. split; [|split; [|split; [|split]]].
  - exact (config_onError_outcome inj fromState toState message cs s outcome p' Hhook).
  - intros cs0 s0. apply ErrorHookOutcome_total.
  - intros m -> Hne. simpl. destruct (decide (m = "")); [contradiction | reflexivity].
  - intros [->| ->]; reflexivity.
  - intros St U Data this w w1 state data msg Hrej Hraised.
    apply transitionTo_Rejected in Hrej. destruct Hrej as (_ & _ & Hh).
    destruct (FiniteStateMachine.onError (FiniteStateMachine.config this))
      as [handler|].
    + exists handler. split; [reflexivity|]. destruct Hh as [_ <-]. exact Hraised.
    + rewrite Hh in Hraised. discriminate.
Qed.

(** C7 as stated fails: an error hook that raises makes the handler, and
    with it [transition], raise the hook's exception and not an
    [IllegalOperationError]. *)
Lemma onError_wrapper_hook_failure :
  let r := OrderStateMachine.transition (Sample.machine Sample.failing_error_hook) tt
             "PaymentSettled" (Sample.world_of (Sample.order_in "AddingItems" [1%nat] (Some 3%nat))) in
  (exists w', r = Throw (ExternalError "error hook failed") w') /\
  (forall m f t w', r <> Throw (IllegalOperationError m f t) w').
Proof.
  split.
  - eexists. vm_compute. reflexivity.
  - intros m f t w'. vm_compute. discriminate.
Qed.

Lemma onError_wrapper_spec_witness :
  let s := FiniteStateMachine.user (Sample.world_of Sample.filled) in
  let p' := ([OrderStateMachine.StrategyOnTransitionError "AddingItems" "PaymentSettled"
                (Some "error.not-today")],
             OrderStateMachine.set_ext ["onTransitionError"] s) in
  let q' := ([OrderStateMachine.StrategyOnTransitionError "AddingItems" "PaymentSettled"
                None], s) in
  (ErrorHookOutcome Sample.noting_errors "AddingItems" "PaymentSettled"
     (Some "error.not-today") [] s None p' /\
   OrderStateMachine.config_onError Sample.noting_errors "AddingItems" "PaymentSettled"
     (Some "error.not-today") ([], s)
   = Throw (IllegalOperationError "error.not-today" "AddingItems" "PaymentSettled") p') /\
  (ErrorHookOutcome Sample.failing_error_hook "AddingItems" "PaymentSettled"
     None [] s (Some (ExternalError "error hook failed")) q' /\
   OrderStateMachine.config_onError Sample.failing_error_hook "AddingItems"
     "PaymentSettled" None ([], s)
   = Throw (ExternalError "error hook failed") q').
Proof.
  intros s p' q'.
  assert (H : ErrorHookOutcome Sample.noting_errors "AddingItems" "PaymentSettled"
                (Some "error.not-today") [] s None p').
  { apply HookReturned.
    eapply (StrategyErrorHook Sample.noting_errors _ _ _ [] s _ Void
              ["onTransitionError"] ["onTransitionError"]); reflexivity. }
  assert (H' : ErrorHookOutcome Sample.failing_error_hook "AddingItems" "PaymentSettled"
                 None [] s (Some (ExternalError "error hook failed")) q').
  { eapply (StrategyHookRaised Sample.failing_error_hook _ _ _ [] s _
              (ExternalError "error hook failed") []); reflexivity. }
  split; (split; [assumption|]).
  - exact (proj1 (onError_wrapper_spec Sample.noting_errors _ _ _ _ _ _ _ H)).
  - exact (proj1 (onError_wrapper_spec Sample.failing_error_hook _ _ _ _ _ _ _ H')).
Defined.

(** C5: the composed guard consults the strategy's guard if there is one,
    otherwise the guard of the process options. When that guard resolves
    to [false] or to a string, this is the composed guard's answer and the
    built-in rule is not consulted. Otherwise the built-in rule decides on
    the order as that guard left it: for a transition to
    [ArrangingPayment] it answers
    [error.cannot-transition-to-payment-when-order-is-empty] when the order
    has no lines, and it answers with a message when the order has no
    customer: [error.cannot-transition-to-payment-without-customer] for an
    order that has lines (the check of the lines comes first). A transition through the adapter that the composed
    guard answers with a string raises, reports that string to [onError],
    and leaves the order as the consulted guard left it: the [state] field
    is unchanged where the guard hooks do not write it. *)
Theorem composed_guard_spec {Ext RequestContext : Type}
    (now : Ext -> nat) (orderStateTransitions : loc)
    (inj : OrderStateMachine.Injected Ext RequestContext)
    (fromState toState : string)
    (data : OrderStateMachine.OrderTransitionData RequestContext)
    (cs cs1 : list (OrderStateMachine.Call RequestContext))
    (s s1 : OrderStateMachine.Store Ext) (v : Resolved) :
  ChosenGuard inj fromState toState data cs s v (cs1, s1) ->
  let g := OrderStateMachine.config_onTransitionStart inj fromState toState data (cs, s) in
  let o1 := OrderStateMachine.order s1 in
  (vetoes v -> g = Ok v (cs1, s1)) /\
  (~ vetoes v -> toState = "ArrangingPayment" ->
   OrderStateMachine.lines o1 = [] ->
   g = Ok (RString "error.cannot-transition-to-payment-when-order-is-empty") (cs1, s1)) /\
  (~ vetoes v -> toState = "ArrangingPayment" ->
   OrderStateMachine.customer o1 = None ->
   exists message,
     g = Ok (RString message) (cs1, s1) /\
     (OrderStateMachine.lines o1 <> [] ->
      message = "error.cannot-transition-to-payment-without-customer")) /\
  (forall (w : OrderStateMachine.AdapterWorld Ext RequestContext) (message : string),
     cs = [] -> s = FiniteStateMachine.user w ->
     fromState = OrderStateMachine.state (OrderStateMachine.order s) ->
     FiniteStateMachine.canTransitionTo toState
       (engine_of now orderStateTransitions inj w, w)
       = Ok true (engine_of now orderStateTransitions inj w, w) ->
     g = Ok (RString message) (cs1, s1) ->
     let r := OrderStateMachine.transition (built now orderStateTransitions inj)
                (OrderStateMachine.ctx data) toState w in
     returned r = false /\
     OrderStateMachine.order (FiniteStateMachine.user (final r)) = o1 /\
     (guards_keep_state inj ->
      OrderStateMachine.state (OrderStateMachine.order (FiniteStateMachine.user (final r)))
      = fromState) /\
     exists calls,
       FiniteStateMachine.history (final r) =
         FiniteStateMachine.history w
           ++ FiniteStateMachine.EvOnTransitionStart fromState toState
           :: map FiniteStateMachine.EvUser cs1
           ++ FiniteStateMachine.EvOnError fromState toState (Some message)
           :: map FiniteStateMachine.EvUser calls).
Proof.
  intros Hc g o1.
  pose proof (config_onTransitionStart_after_chosen inj fromState toState data cs s v
                (cs1, s1) Hc) as Hg. fold g in Hg.
  split; [|split; [|split]].
  - intros [->|[m ->]]; exact Hg.
  - intros Hnv -> Hlines. rewrite Hg.
    assert (Hb : @OrderStateMachine.onTransitionStart Ext RequestContext fromState
                   "ArrangingPayment" data (cs1, s1)
                 = Ok (RString "error.cannot-transition-to-payment-when-order-is-empty")
                      (cs1, s1)).
    { unfold OrderStateMachine.onTransitionStart, bind, OrderStateMachine.the_order,
        gets, ret. simpl. fold o1. rewrite Hlines. reflexivity. }
    destruct v as [[|]|m|]; try exact Hb; exfalso; apply Hnv; unfold vetoes; eauto.
  - intros Hnv -> Hcust. rewrite Hg.
    assert (Hb : exists message,
               @OrderStateMachine.onTransitionStart Ext RequestContext fromState
                 "ArrangingPayment" data (cs1, s1)
               = Ok (RString message) (cs1, s1) /\
               (OrderStateMachine.lines o1 <> [] ->
                message = "error.cannot-transition-to-payment-without-customer")).
    { unfold OrderStateMachine.onTransitionStart, bind, OrderStateMachine.the_order,
        gets, ret. simpl. fold o1. rewrite Hcust.
      destruct (OrderStateMachine.lines o1); simpl;
        eexists; (split; [reflexivity|]); [contradiction | reflexivity]. }
    destruct v as [[|]|m|]; try exact Hb; exfalso; apply Hnv; unfold vetoes; eauto.
  - intros w message -> -> -> Hcan Hgm r.
    destruct data as [c]. simpl in r.
    assert (Hrej : Rejection (engine_of now orderStateTransitions inj w) w toState
                     {| OrderStateMachine.ctx := c |} (Some message)
                     (after_callback w
                        [FiniteStateMachine.EvOnTransitionStart
                           (FiniteStateMachine._currentState
                              (engine_of now orderStateTransitions inj w)) toState]
                        cs1 s1)).
    { eapply GuardString; [exact Hcan | reflexivity | exact Hgm]. }
    destruct (transition_rejected now orderStateTransitions inj c toState w _ _ Hrej)
      as (Hr & Ho & calls & Hh).
    split; [exact Hr|]. split; [exact Ho|]. split.
    + intros Hframe. subst r. rewrite Ho.
      apply (Rejection_keeps_state now orderStateTransitions inj c toState w _ _ Hframe Hrej).
    + exists calls. subst r. rewrite Hh. simpl. rewrite <- app_assoc. reflexivity.
Qed.


(** C3 does not hold of the code: the end hook of the process options is
    called and not awaited. With such a hook that is an [async] function,
    [transition] returns, the order's state written, while the hook's
    promise is still pending: what the hook does after its [await] is not
    in the journal. The same hook offered by the strategy is awaited, and
    has finished before the built-in side effects start. *)
Theorem process_onTransitionEnd_is_not_awaited :
  let w := Sample.world_of (Sample.order_in "ArrangingPayment" [1%nat] (Some 3%nat)) in
  let r := OrderStateMachine.transition (Sample.machine Sample.async_end_hook) tt
             "PaymentAuthorized" w in
  let r' := OrderStateMachine.transition
              (Sample.machine Sample.async_end_hook_of_strategy) tt
              "PaymentAuthorized" w in
  let s := FiniteStateMachine.user (final r) in
  let s' := FiniteStateMachine.user (final r') in
  returned r = true /\
  OrderStateMachine.state (OrderStateMachine.order s) = "PaymentAuthorized" /\
  OrderStateMachine.ext s =
    ["createSalesForOrder"; "addPromotionsToOrder"; "createHistoryEntryForOrder"] /\
  (exists rest,
      OrderStateMachine.floating s = [rest] /\
      snd (final (rest (OrderStateMachine.order s, OrderStateMachine.ext s))) =
        ["createSalesForOrder"; "addPromotionsToOrder"; "createHistoryEntryForOrder";
         "onTransitionEnd finished"]) /\
  returned r' = true /\
  OrderStateMachine.floating s' = [] /\
  OrderStateMachine.ext s' =
    ["onTransitionEnd finished"; "createSalesForOrder"; "addPromotionsToOrder";
     "createHistoryEntryForOrder"].
Proof.
  repeat split; try (vm_compute; reflexivity).
  eexists. split; vm_compute; reflexivity.
Qed.

(** C2 does not hold of the code: the merge works on the base graph
    itself, and puts the override's own entry objects into it. Building
    the configuration twice with the same process options appends the
    override's destinations to the base graph twice, and the second build
    writes to an entry object of the override. *)
Theorem mergeTransitionDefinitions_accumulates :
  let build := OrderStateMachine.new_OrderStateMachine Sample.clock Sample.base
                 Sample.extending in
  let h0 := Sample.extended_heap in
  let h1 := final (build h0) in
  let h2 := final (build h1) in
  returned (build h0) = true /\ returned (build h1) = true /\
  graph_to h0 Sample.base "AddingItems" = Some ["ArrangingPayment"; "Cancelled"] /\
  graph_to h1 Sample.base "AddingItems"
    = Some ["ArrangingPayment"; "Cancelled"; "Validating"] /\
  graph_to h2 Sample.base "AddingItems"
    = Some ["ArrangingPayment"; "Cancelled"; "Validating"; "Validating"] /\
  graph_to h0 Sample.custom "Validating" = Some ["ArrangingPayment"] /\
  graph_to h1 Sample.custom "Validating" = Some ["ArrangingPayment"] /\
  graph_to h2 Sample.custom "Validating" = Some ["ArrangingPayment"; "ArrangingPayment"].
Proof. repeat split; vm_compute; reflexivity. Qed.

(** ** The properties at work on the sample installation *)

Lemma canTransitionTo_getNextStates_spec_witness :
  let this := engine_of Sample.clock Sample.base Sample.plain (Sample.world_of Sample.filled) in
  let w := Sample.world_of Sample.filled in
  graph_to (FiniteStateMachine.heap w)
           (FiniteStateMachine.transitions (FiniteStateMachine.config this))
           (FiniteStateMachine._currentState this)
    = Some ["ArrangingPayment"; "Cancelled"] /\
  (exists b : bool,
      FiniteStateMachine.canTransitionTo "Cancelled" (this, w) = Ok b (this, w) /\
      (b = true <-> In "Cancelled" ["ArrangingPayment"; "Cancelled"])) /\
  FiniteStateMachine.getNextStates (this, w)
    = Ok (Some ["ArrangingPayment"; "Cancelled"]) (this, w).
Proof.
  intros this w.
  assert (H : graph_to (FiniteStateMachine.heap w)
                (FiniteStateMachine.transitions (FiniteStateMachine.config this))
                (FiniteStateMachine._currentState this)
              = Some ["ArrangingPayment"; "Cancelled"]) by (vm_compute; reflexivity).
  split; [exact H|].
  destruct (canTransitionTo_getNextStates_spec this w _ H) as [Hcan Hnext].
  split; [exact (Hcan "Cancelled") | exact Hnext].
Defined.

Lemma Sample_vetoed :
  Rejection (engine_of Sample.clock Sample.base Sample.vetoing (Sample.world_of Sample.filled))
    (Sample.world_of Sample.filled) "ArrangingPayment" {| OrderStateMachine.ctx := tt |}
    (Some "error.not-today") (Sample.after_guard Sample.filled "ArrangingPayment").
Proof.
  eapply GuardString.
  - vm_compute. reflexivity.
  - reflexivity.
  - vm_compute. reflexivity.
Defined.

Lemma transitionTo_rejection_witness :
  let this := engine_of Sample.clock Sample.base Sample.vetoing (Sample.world_of Sample.filled) in
  let w := Sample.world_of Sample.filled in
  let w1 := Sample.after_guard Sample.filled "ArrangingPayment" in
  Rejection this w "ArrangingPayment" {| OrderStateMachine.ctx := tt |}
    (Some "error.not-today") w1 /\
  Rejected this w "ArrangingPayment" (Some "error.not-today") w1
    (FiniteStateMachine.transitionTo "ArrangingPayment" {| OrderStateMachine.ctx := tt |}
       (this, w)).
Proof.
  intros this w w1. split; [exact Sample_vetoed|].
  exact (transitionTo_rejection this w "ArrangingPayment" _ _ w1 Sample_vetoed).
Defined.



Lemma Sample_vetoing_keeps_state : guards_keep_state Sample.vetoing.
Proof.
  intros f [Hf|Hf]; simpl in Hf; [|discriminate].
  injection Hf as <-. intros fromState toState data o e. reflexivity.
Defined.

Lemma transition_writes_only_after_advance_witness :
  let w := Sample.world_of Sample.filled in
  let r := OrderStateMachine.transition (Sample.machine Sample.vetoing) tt
             "ArrangingPayment" w in
  let w' := Sample.world_of (Sample.order_in "Validating" [1%nat] (Some 3%nat)) in
  (returned r = false /\
   OrderStateMachine.state (OrderStateMachine.order (FiniteStateMachine.user (final r)))
     = "AddingItems") /\
  OrderStateMachine.transition (Sample.machine Sample.plain) tt "ArrangingPayment" w'
    = Throw TypeError w' /\
  OrderStateMachine.transition (Sample.machine Sample.failing_guard) tt
    "ArrangingPayment" w
    = Throw (ExternalError "guard failed")
        (Sample.after_guard Sample.filled "ArrangingPayment").
Proof.
  intros w r w'. split; [|split].
  - destruct (proj1 (proj2 (transition_writes_only_after_advance Sample.clock Sample.base
                              Sample.vetoing tt "ArrangingPayment" w))
                _ _ Sample_vetoed) as (Hr & _ & Hstate).
    split; [exact Hr | exact (Hstate Sample_vetoing_keeps_state)].
  - apply (proj1 (proj2 (proj2 (proj2 (proj2
             (transition_writes_only_after_advance Sample.clock Sample.base
                Sample.plain tt "ArrangingPayment" w')))))).
    vm_compute. reflexivity.
  - apply (proj1 (proj2 (proj2 (proj2 (proj2 (proj2
             (transition_writes_only_after_advance Sample.clock Sample.base
                Sample.failing_guard tt "ArrangingPayment" w)))))))
      with (us := [OrderStateMachine.StrategyOnTransitionStart "AddingItems"
                     "ArrangingPayment"]).
    + vm_compute. reflexivity.
    + vm_compute. reflexivity.
Defined.

Lemma composed_guard_spec_witness :
  let s := FiniteStateMachine.user (Sample.world_of Sample.empty) in
  let cs1 := [OrderStateMachine.StrategyOnTransitionStart "AddingItems" "ArrangingPayment"] in
  ChosenGuard Sample.approving "AddingItems" "ArrangingPayment"
    {| OrderStateMachine.ctx := tt |} [] s (RBool true) (cs1, Sample.guarded Sample.empty) /\
  OrderStateMachine.config_onTransitionStart Sample.approving "AddingItems"
    "ArrangingPayment" {| OrderStateMachine.ctx := tt |} ([], s)
  = Ok (RString "error.cannot-transition-to-payment-when-order-is-empty")
       (cs1, Sample.guarded Sample.empty).
Proof.
  intros s cs1.
  assert (H : ChosenGuard Sample.approving "AddingItems" "ArrangingPayment"
                {| OrderStateMachine.ctx := tt |} [] s (RBool true)
                (cs1, Sample.guarded Sample.empty)).
  { eapply (StrategyGuard Sample.approving _ _ _ [] s _ (RBool true) Sample.empty ["guard"]).
    - reflexivity.
    - vm_compute. reflexivity. }
  split; [exact H|].
  destruct (composed_guard_spec Sample.clock Sample.base Sample.approving _ _ _ _ _ _ _ _ H)
    as (_ & Hempty & _).
  apply Hempty.
  - intros [Hv|[m Hv]]; discriminate.
  - reflexivity.
  - reflexivity.
Defined.

Lemma Sample_two_graphs_mergeable :
  mergeable Sample.two_graphs [("S", 10%nat)] [("S", 20%nat)].
Proof.
  split.
  - apply (bool_decide_unpack _). vm_compute. exact I.
  - intros k e H. simpl in H. destruct (decide ("S" = k)); [|discriminate].
    injection H as <-. vm_compute. eauto.
  - intros k e H. simpl in H. destruct (decide ("S" = k)); [|discriminate].
    injection H as <-. vm_compute. eauto.
  - intros k' k e Hne H1 H2. simpl in H1 |- *.
    destruct (decide ("S" = k')); [|discriminate]. injection H1 as <-.
    destruct (decide ("S" = k)); [congruence|]. split; discriminate.
  - split; reflexivity.
  - reflexivity.
Defined.

(** The graphs after a first build are mergeable again, though the base
    then holds the entry object of the override under [Validating]. *)
Lemma Sample_second_build_mergeable :
  mergeable
    (final (OrderStateMachine.new_OrderStateMachine Sample.clock Sample.base
              Sample.extending Sample.extended_heap))
    [("AddingItems", 10%nat); ("ArrangingPayment", 11%nat);
     ("PaymentAuthorized", 12%nat); ("PaymentSettled", 13%nat); ("Cancelled", 14%nat);
     ("Validating", 21%nat)]
    [("AddingItems", 20%nat); ("Validating", 21%nat)].
Proof.
  split.
  - apply (bool_decide_unpack _). vm_compute. exact I.
  - intros k e H. simpl in H. repeat case_decide; simplify_eq; vm_compute; eauto.
  - intros k e H. simpl in H. repeat case_decide; simplify_eq; vm_compute; eauto.
  - intros k' k e Hne H1 [x H2]. simpl in H1, H2 |- *.
    repeat case_decide; simplify_eq; split; discriminate.
  - split; reflexivity.
  - reflexivity.
Defined.

Lemma mergeTransitionDefinitions_appends_witness :
  (mergeable Sample.two_graphs [("S", 10%nat)] [("S", 20%nat)] /\
   exists h',
     OrderStateMachine.mergeTransitionDefinitions 0%nat (Some 1%nat) Sample.two_graphs
       = Ok 0%nat h' /\
     graph_to h' 0%nat "S" = Some ["Y"; "X"]) /\
  (let h1 := final (OrderStateMachine.new_OrderStateMachine Sample.clock Sample.base
                      Sample.extending Sample.extended_heap) in
   exists h2,
     OrderStateMachine.mergeTransitionDefinitions Sample.base (Some Sample.custom) h1
       = Ok Sample.base h2 /\
     graph_to h2 Sample.base "Validating"
       = Some ["ArrangingPayment"; "ArrangingPayment"]).
Proof.
  split.
  - split; [exact Sample_two_graphs_mergeable|].
    destruct (mergeTransitionDefinitions_appends Sample.two_graphs 0%nat 1%nat
                [("S", 10%nat)] [("S", 20%nat)] eq_refl eq_refl
                Sample_two_graphs_mergeable)
      as (h' & Hrun & Hall).
    exists h'. split; [exact Hrun|].
    destruct (Hall "S" 20%nat ["X"] eq_refl eq_refl) as (ys & Hys & Hto).
    vm_compute in Hys. injection Hys as <-. exact Hto.
  - intros h1.
    destruct (mergeTransitionDefinitions_appends h1 Sample.base Sample.custom
                _ _ eq_refl eq_refl Sample_second_build_mergeable)
      as (h2 & Hrun & Hall).
    exists h2. split; [exact Hrun|].
    destruct (Hall "Validating" 21%nat ["ArrangingPayment"] eq_refl eq_refl)
      as (ys & Hys & Hto).
    vm_compute in Hys. injection Hys as <-. exact Hto.
Defined.


(** ** Further properties of the engine *)

Section EngineFurther.
Import FiniteStateMachine.
Context {St U Data : Type}.
Implicit Types (this : FSM St U Data) (w : World St U).

Lemma canTransitionTo_true this w (state : string) :
  canTransitionTo state (this, w) = Ok true (this, w) ->
  exists dests,
    graph_to (heap w) (transitions (config this)) (_currentState this) = Some dests /\
    In state dests.
Proof.
  unfold canTransitionTo.
  destruct (graph_to _ _ _) as [dests|]; [|discriminate].
  intros [= Hlt]. exists dests. split; [reflexivity|]. apply indexOf_In. exact Hlt.
Qed.

Lemma Rejection_world this w (state : string) (data : Data)
    (message : option string) w1 :
  Rejection this w state data message w1 ->
  heap w1 = heap w /\ exists evs, history w1 = history w ++ evs.
Proof.
  intros [?|? ? ? ? ? ?|? ? ? ? ? ? ?]; simpl; split; try reflexivity.
  - exists []. symmetry. apply app_nil_r.
  - eexists. reflexivity.
  - eexists. reflexivity.
Qed.

Lemma Proceeds_world this w (state : string) (data : Data) w1 :
  Proceeds this w state data w1 ->
  heap w1 = heap w /\ exists evs, history w1 = history w ++ evs.
Proof.
  intros [? ?|? ? ? ? ? ? ? ? ?]; simpl; split; try reflexivity.
  - exists []. symmetry. apply app_nil_r.
  - eexists. reflexivity.
Qed.

(** What every run of [transitionTo] keeps, and where it can leave
    [_currentState]. *)
Lemma transitionTo_keeps this w (state : string) (data : Data) :
  let r := transitionTo state data (this, w) in
  config (fst (final r)) = config this /\
  _initialState (fst (final r)) = _initialState this /\
  heap (snd (final r)) = heap w /\
  (exists evs, history (snd (final r)) = history w ++ evs) /\
  (_currentState (fst (final r)) = _currentState this \/
   _currentState (fst (final r)) = state /\
   canTransitionTo state (this, w) = Ok true (this, w)).
Proof.
  intros r. subst r.
  destruct (transitionTo_cases this w state data)
    as [Ht | [(g & e & us & s & _ & _ & Ht) | [(m & w1 & Hrej) | (w1 & Hp)]]].
  - rewrite Ht. simpl. repeat split; auto. exists []. symmetry. apply app_nil_r.
  - rewrite Ht. simpl. repeat split; auto. eexists. reflexivity.
  - destruct (Rejection_world _ _ _ _ _ _ Hrej) as (Hheap & evs & Hh).
    destruct (transitionTo_Rejected _ _ _ _ _ _ Hrej) as (Hthis & _ & Hw).
    rewrite Hthis. repeat split; auto.
    + destruct (onError (config this)) as [handler|].
      * destruct Hw as [-> _]. simpl. exact Hheap.
      * rewrite Hw. simpl. exact Hheap.
    + destruct (onError (config this)) as [handler|].
      * destruct Hw as [-> _]. simpl. rewrite Hh, <- app_assoc. eexists. reflexivity.
      * rewrite Hw. simpl. exists evs. exact Hh.
  - destruct (Proceeds_world _ _ _ _ _ Hp) as (Hheap & evs & Hh).
    rewrite (transitionTo_Proceeds _ _ _ _ _ Hp).
    pose proof (commit_spec this w1 state data) as Hc. cbv zeta in Hc.
    destruct Hc as (Hthis & Hw). rewrite Hthis. simpl.
    assert (Hcan : canTransitionTo state (this, w) = Ok true (this, w)).
    { destruct Hp; assumption. }
    repeat split; auto.
    + destruct (onTransitionEnd (config this)) as [handler|].
      * destruct Hw as [-> _]. simpl. exact Hheap.
      * rewrite Hw. simpl. exact Hheap.
    + destruct (onTransitionEnd (config this)) as [handler|].
      * destruct Hw as [-> _]. simpl. rewrite Hh, <- app_assoc. eexists. reflexivity.
      * rewrite Hw. simpl. rewrite Hh, <- app_assoc. eexists. reflexivity.
Qed.

Lemma transitionTo_Rejection_run this w (state : string) (data : Data)
    (message : option string) w1 :
  Rejection this w state data message w1 ->
  transitionTo state data (this, w)
  = onError_ (_currentState this) state message (this, w1).
Proof.
  intros [Hcan | guard us s Hcan Hguard Hrun | guard us s m Hcan Hguard Hrun];
    unfold transitionTo, bind; rewrite Hcan; simpl; [reflexivity| |];
    rewrite Hguard; unfold call; simpl; rewrite Hrun; simpl;
    rewrite <- app_assoc; reflexivity.
Qed.

Lemma transitionTo_end_failure this w w1 (state : string) (data : Data)
    (handler : string -> string -> Data -> Callback unit)
    (e : Exn) (us : list U) (s : St) :
  Proceeds this w state data w1 ->
  onTransitionEnd (config this) = Some handler ->
  handler (_currentState this) state data ([], user w1) = Throw e (us, s) ->
  transitionTo state data (this, w) =
    Throw e (with_currentState state this,
             after_callback w1
               [EvCommit (_currentState this) state;
                EvOnTransitionEnd (_currentState this) state state] us s).
Proof.
  intros Hp Hend Hrun.
  rewrite (transitionTo_Proceeds _ _ _ _ _ Hp).
  unfold commit, bind, this_, gets, set_currentState, record, modify. simpl.
  rewrite Hend. simpl. unfold call. simpl. rewrite Hrun. simpl.
  unfold after_callback, with_currentState. simpl. rewrite <- !app_assoc. reflexivity.
Qed.

End EngineFurther.

(** X1: [transitionTo] moves [currentState] along an edge of the graph or
    not at all: after the call, however it ended, [currentState] is what
    it was, or it is the requested state and that state is in the
    destination list the graph holds for the state before. *)
Theorem transitionTo_moves_along_edges {St U Data : Type}
    (this : FiniteStateMachine.FSM St U Data) (w : FiniteStateMachine.World St U)
    (state : string) (data : Data) :
  let r := FiniteStateMachine.transitionTo state data (this, w) in
  FiniteStateMachine._currentState (fst (final r))
    = FiniteStateMachine._currentState this \/
  (FiniteStateMachine._currentState (fst (final r)) = state /\
   exists dests,
     graph_to (FiniteStateMachine.heap w)
       (FiniteStateMachine.transitions (FiniteStateMachine.config this))
       (FiniteStateMachine._currentState this) = Some dests /\
     In state dests).
Proof.
  intros r.
  destruct (transitionTo_keeps this w state data) as (_ & _ & _ & _ & [H|[H Hcan]]).
  - left. exact H.
  - right. split; [exact H|]. apply canTransitionTo_true. exact Hcan.
Qed.

(** X3: when the graph gives no destination list for the current state,
    [canTransitionTo] and [transitionTo] raise a [TypeError], and
    [transitionTo] does so before any callback: not even [onError] is
    invoked, and instance and world are as they were. [getNextStates]
    raises a [TypeError] only where the graph has no property at all
    under the state's name; where the name is one the graph object
    inherits, such as [constructor], it returns [undefined]. *)
Theorem missing_entry_raises {St U Data : Type}
    (this : FiniteStateMachine.FSM St U Data) (w : FiniteStateMachine.World St U)
    (state : string) (data : Data) :
  graph_to (FiniteStateMachine.heap w)
    (FiniteStateMachine.transitions (FiniteStateMachine.config this))
    (FiniteStateMachine._currentState this) = None ->
  FiniteStateMachine.canTransitionTo state (this, w) = Throw TypeError (this, w) /\
  FiniteStateMachine.transitionTo state data (this, w) = Throw TypeError (this, w) /\
  FiniteStateMachine.getNextStates (this, w) =
    match get_property (FiniteStateMachine.heap w)
            (FiniteStateMachine.transitions (FiniteStateMachine.config this))
            (FiniteStateMachine._currentState this) with
    | OtherValue => Ok None (this, w)
    | EntryObject _ | NoProperty => Throw TypeError (this, w)
    end.
Proof.
  intros Hg.
  assert (Hcan : FiniteStateMachine.canTransitionTo state (this, w)
                 = Throw TypeError (this, w)).
  { unfold FiniteStateMachine.canTransitionTo. rewrite Hg. reflexivity. }
  split; [exact Hcan|]. split.
  - unfold FiniteStateMachine.transitionTo, bind. rewrite Hcan. reflexivity.
  - unfold FiniteStateMachine.getNextStates. revert Hg. unfold graph_to, read_to.
    destruct (get_property _ _ _) as [e| |]; try reflexivity.
    destruct (entries _ !! e); [discriminate | reflexivity].
Qed.

(** X4: when the guard raises, [transitionTo] raises the guard's
    exception: there is no commit, [onError] is not invoked, and
    [currentState] is what it was. *)
Theorem guard_failure_propagates {St U Data : Type}
    (this : FiniteStateMachine.FSM St U Data) (w : FiniteStateMachine.World St U)
    (state : string) (data : Data)
    (guard : string -> string -> Data -> FiniteStateMachine.Callback Resolved)
    (e : Exn) (us : list U) (s : St) :
  FiniteStateMachine.canTransitionTo state (this, w) = Ok true (this, w) ->
  FiniteStateMachine.onTransitionStart (FiniteStateMachine.config this) = Some guard ->
  guard (FiniteStateMachine._currentState this) state data
        ([], FiniteStateMachine.user w) = Throw e (us, s) ->
  FiniteStateMachine.transitionTo state data (this, w) =
    Throw e (this,
             after_callback w
               [FiniteStateMachine.EvOnTransitionStart
                  (FiniteStateMachine._currentState this) state] us s).
Proof.
  intros Hcan Hguard Hrun.
  unfold FiniteStateMachine.transitionTo, bind. rewrite Hcan. simpl. rewrite Hguard.
  unfold FiniteStateMachine.call. simpl. rewrite Hrun. simpl.
  rewrite <- app_assoc. reflexivity.
Qed.

(** X5: when the end callback raises, [transitionTo] raises its exception
    and the commit stands: [currentState] is the target. *)
Theorem end_failure_keeps_commit {St U Data : Type}
    (this : FiniteStateMachine.FSM St U Data)
    (w w1 : FiniteStateMachine.World St U) (state : string) (data : Data)
    (handler : string -> string -> Data -> FiniteStateMachine.Callback unit)
    (e : Exn) (us : list U) (s : St) :
  Proceeds this w state data w1 ->
  FiniteStateMachine.onTransitionEnd (FiniteStateMachine.config this) = Some handler ->
  handler (FiniteStateMachine._currentState this) state data
          ([], FiniteStateMachine.user w1) = Throw e (us, s) ->
  let r := FiniteStateMachine.transitionTo state data (this, w) in
  r = Throw e (with_currentState state this,
               after_callback w1
                 [FiniteStateMachine.EvCommit (FiniteStateMachine._currentState this) state;
                  FiniteStateMachine.EvOnTransitionEnd
                    (FiniteStateMachine._currentState this) state state] us s) /\
  FiniteStateMachine.currentState (fst (final r)) = state.
Proof.
  intros Hp Hend Hrun r. subst r.
  rewrite (transitionTo_end_failure this w w1 state data handler e us s Hp Hend Hrun).
  split; reflexivity.
Qed.

(** [jumpTo(state)] sets [currentState] to any state, in the graph or
    not, invokes no callback and leaves [initialState] alone; the queries
    then answer for that state: [getNextStates] gives what the graph
    holds as the destination list of that state, be it a list or
    [undefined], and raises a [TypeError] where the graph has no property
    under that name. *)
Theorem jumpTo_then_getNextStates {St U Data : Type}
    (this : FiniteStateMachine.FSM St U Data) (w : FiniteStateMachine.World St U)
    (state : string) :
  FiniteStateMachine.jumpTo state (this, w) = Ok tt (with_currentState state this, w) /\
  FiniteStateMachine.currentState (with_currentState state this) = state /\
  FiniteStateMachine.initialState (with_currentState state this)
    = FiniteStateMachine.initialState this /\
  bind (FiniteStateMachine.jumpTo state) (fun _ => FiniteStateMachine.getNextStates)
       (this, w) =
    match read_to (FiniteStateMachine.heap w)
            (FiniteStateMachine.transitions (FiniteStateMachine.config this)) state with
    | ToArray dests => Ok (Some dests) (with_currentState state this, w)
    | ToUndefined => Ok None (with_currentState state this, w)
    | ToTypeError => Throw TypeError (with_currentState state this, w)
    end.
Proof.
  split; [reflexivity|]. split; [reflexivity|]. split; [reflexivity|].
  unfold bind, FiniteStateMachine.jumpTo, FiniteStateMachine.set_currentState, modify,
    FiniteStateMachine.getNextStates. simpl.
  destruct (read_to _ _ state); reflexivity.
Qed.

(** ** Further properties of the adapter *)

Section AdapterFurther.
Import OrderStateMachine.
Context {Ext RequestContext : Type}.
Variable now : Ext -> nat.
Variable orderStateTransitions : loc.
Implicit Types (inj : Injected Ext RequestContext)
               (w : AdapterWorld Ext RequestContext)
               (p : list (Call RequestContext) * Store Ext).

(** [transition] leaves the transition graphs as they were. *)
Lemma transition_heap inj (c : RequestContext) (target : string) w :
  FiniteStateMachine.heap (final (transition (built now orderStateTransitions inj) c target w))
  = FiniteStateMachine.heap w.
Proof.
  destruct (transition_final now orderStateTransitions inj c target w) as (_ & Hh & _).
  rewrite Hh.
  exact (proj1 (proj2 (proj2 (transitionTo_keeps
           (engine_of now orderStateTransitions inj w) w target {| ctx := c |})))).
Qed.

(** A rejected transition through the adapter, its error hook not
    raising: the exception and the world it is raised in. *)
Lemma transition_rejection_run inj (c : RequestContext) (target : string) w
    (message : option string) w1 calls (s' : Store Ext) :
  Rejection (engine_of now orderStateTransitions inj w) w target
            {| ctx := c |} message w1 ->
  ErrorHookReturns inj (state (order (FiniteStateMachine.user w))) target message
    [] (FiniteStateMachine.user w1) (calls, s') ->
  transition (built now orderStateTransitions inj) c target w =
    Throw (IllegalOperationError (message_or_default message)
             (state (order (FiniteStateMachine.user w))) target)
          (after_callback w1
             [FiniteStateMachine.EvOnError (state (order (FiniteStateMachine.user w)))
                target message] calls s').
Proof.
  intros Hrej Hhook.
  pose proof (transitionTo_Rejection_run _ _ _ _ _ _ Hrej) as Heq.
  apply config_onError_IllegalOperationError in Hhook.
  assert (Ha : attempt (built now orderStateTransitions inj) c target w =
               Throw (IllegalOperationError (message_or_default message)
                        (state (order (FiniteStateMachine.user w))) target)
                     (engine_of now orderStateTransitions inj w,
                      after_callback w1
                        [FiniteStateMachine.EvOnError
                           (state (order (FiniteStateMachine.user w))) target message]
                        calls s')).
  { unfold attempt. etransitivity; [exact Heq|].
    unfold FiniteStateMachine.onError_, bind, FiniteStateMachine.this_, gets. simpl.
    unfold FiniteStateMachine.call. simpl. rewrite Hhook. simpl.
    unfold after_callback. simpl. rewrite <- app_assoc. reflexivity. }
  unfold transition. rewrite Ha. reflexivity.
Qed.

(** The built-in end hook when the stock service fails. *)
Lemma onTransitionEnd_stock_failure inj (fromState toState : string)
    (data : OrderTransitionData RequestContext) cs (s : Store Ext)
    (e : Exn) (o2 : Order) (e2 : Ext) :
  toState = "PaymentAuthorized" \/ toState = "PaymentSettled" ->
  let o' := set_orderPlacedAt (Some (now (ext s))) (set_active false (order s)) in
  createSalesForOrder (stockMovementService inj) (o', ext s) = Throw e (o2, e2) ->
  onTransitionEnd now inj fromState toState data (cs, s) =
    Throw e (cs ++ [NewDate (now (ext s)); CreateSalesForOrder o'],
             {| order := o2; ext := e2; floating := floating s |}).
Proof.
  intros Hpay o' Hfail. unfold onTransitionEnd.
  destruct (decide (toState = "PaymentAuthorized" \/ toState = "PaymentSettled"));
    [|contradiction].
  unfold bind, update_order, modify, gets, report, with_order, the_order,
    detached, zoom, ret. simpl. fold o'. rewrite Hfail. simpl.
  rewrite <- !app_assoc. reflexivity.
Qed.

(** The guard was consulted: what the world the guard let the transition
    through in holds beyond the world before. *)
Lemma Proceeds_guard_calls inj (c : RequestContext) (target : string) w wg :
  Proceeds (engine_of now orderStateTransitions inj w) w target {| ctx := c |} wg ->
  let fromState := state (order (FiniteStateMachine.user w)) in
  exists guard_calls,
    FiniteStateMachine.history wg =
      FiniteStateMachine.history w
        ++ FiniteStateMachine.EvOnTransitionStart fromState target
        :: map FiniteStateMachine.EvUser guard_calls /\
    (guard_calls = [] \/ guard_calls = [StrategyOnTransitionStart fromState target] \/
     guard_calls = [ProcessOnTransitionStart fromState target]).
Proof.
  intros Hp fromState.
  destruct Hp as [_ Hguard | guard verdict us s _ Hguard Hrun _ _];
    simpl in Hguard; [discriminate|].
  injection Hguard as <-.
  destruct (config_onTransitionStart_calls inj fromState target {| ctx := c |} []
              (FiniteStateMachine.user w)) as (gc & Hgc & Hform).
  simpl in Hrun. fold fromState in Hrun. rewrite Hrun in Hgc. simpl in Hgc.
  subst us. exists gc. split; [reflexivity | exact Hform].
Qed.

(** What an [entrance] has added to the history. *)
Lemma entrance_since inj (c : RequestContext) (target : string) w w2
    (effects : Store Ext -> Store Ext -> list (Call RequestContext) -> Prop) :
  entrance now orderStateTransitions inj c target w w2 effects ->
  let fromState := state (order (FiniteStateMachine.user w)) in
  exists guard_calls pre s1 s2 mid,
    effects s1 s2 mid /\
    FiniteStateMachine.user w2 = set_order (set_state target (order s2)) s2 /\
    since w w2 =
      (FiniteStateMachine.EvOnTransitionStart fromState target
       :: map FiniteStateMachine.EvUser guard_calls)
      ++ [FiniteStateMachine.EvCommit fromState target;
          FiniteStateMachine.EvOnTransitionEnd fromState target target]
      ++ map FiniteStateMachine.EvUser (pre ++ mid ++ [SetOrderState target]) /\
    (guard_calls = [] \/ guard_calls = [StrategyOnTransitionStart fromState target] \/
     guard_calls = [ProcessOnTransitionStart fromState target]) /\
    (pre = [] \/ pre = [StrategyOnTransitionEnd fromState target] \/
     pre = [ProcessOnTransitionEnd fromState target]).
Proof.
  intros (wg & pre & s1 & s2 & mid & Hp & Hch & Heff & Hu & Hh) fromState.
  destruct (Proceeds_guard_calls inj c target w wg Hp) as (gc & Hwg & Hgc).
  destruct (chosen_onTransitionEnd_calls inj fromState target {| ctx := c |} []
              (FiniteStateMachine.user wg)) as (pre' & Hpre & Hform).
  fold fromState in Hch. rewrite Hch in Hpre. simpl in Hpre. subst pre'.
  exists gc, pre, s1, s2, mid.
  split; [exact Heff|]. split; [exact Hu|]. split; [|split; assumption].
  unfold since. rewrite Hh, Hwg, <- !app_assoc, drop_app_length. reflexivity.
Qed.

End AdapterFurther.

(** X6: a transition through the adapter that is rejected, the error hook
    in charge (if any) not raising, raises an [IllegalOperationError] that
    carries the order's state, the target and the message of the rejection
    (the default message for an illegal target, a [false] or an empty
    string); the engine's history then ends with the invocation of
    [onError], and the order's state has not been written. *)
Theorem transition_raises_IllegalOperationError {Ext RequestContext : Type}
    (now : Ext -> nat) (orderStateTransitions : loc)
    (inj : OrderStateMachine.Injected Ext RequestContext)
    (c : RequestContext) (target : string)
    (w w1 : OrderStateMachine.AdapterWorld Ext RequestContext)
    (message : option string)
    (calls : list (OrderStateMachine.Call RequestContext))
    (s' : OrderStateMachine.Store Ext) :
  let fromState :=
    OrderStateMachine.state (OrderStateMachine.order (FiniteStateMachine.user w)) in
  Rejection (engine_of now orderStateTransitions inj w) w target
            {| OrderStateMachine.ctx := c |} message w1 ->
  ErrorHookReturns inj fromState target message [] (FiniteStateMachine.user w1)
    (calls, s') ->
  OrderStateMachine.transition (built now orderStateTransitions inj) c target w =
    Throw (IllegalOperationError (OrderStateMachine.message_or_default message)
             fromState target)
          (after_callback w1
             [FiniteStateMachine.EvOnError fromState target message] calls s') /\
  OrderStateMachine.order s' = OrderStateMachine.order (FiniteStateMachine.user w1).
Proof.
  intros fromState Hrej Hhook. split.
  - apply transition_rejection_run; assumption.
  - inversion Hhook as [f r e1 e2 _ _ _ | f r e1 _ _ _ | _ _]; subst; try reflexivity.
    destruct r; reflexivity.
Qed.

(** X7: a rejection for an illegal target can be repeated: in the world
    the rejected [transition] ends in, the order is as it was and the same
    target is illegal again. *)
Theorem illegal_target_stays_illegal {Ext RequestContext : Type}
    (now : Ext -> nat) (orderStateTransitions : loc)
    (inj : OrderStateMachine.Injected Ext RequestContext)
    (c : RequestContext) (target : string)
    (w : OrderStateMachine.AdapterWorld Ext RequestContext) :
  let this := built now orderStateTransitions inj in
  let w' := final (OrderStateMachine.transition this c target w) in
  OrderStateMachine.canTransition this
    (OrderStateMachine.state (OrderStateMachine.order (FiniteStateMachine.user w)))
    target w = Ok false w ->
  returned (OrderStateMachine.transition this c target w) = false /\
  OrderStateMachine.order (FiniteStateMachine.user w')
    = OrderStateMachine.order (FiniteStateMachine.user w) /\
  OrderStateMachine.canTransition this
    (OrderStateMachine.state (OrderStateMachine.order (FiniteStateMachine.user w')))
    target w' = Ok false w'.
Proof.
  intros this w' Hcan.
  assert (Hcan' : FiniteStateMachine.canTransitionTo target
                    (engine_of now orderStateTransitions inj w, w)
                  = Ok false (engine_of now orderStateTransitions inj w, w)).
  { revert Hcan. unfold OrderStateMachine.canTransition, OrderStateMachine.on_instance,
      FiniteStateMachine.canTransitionTo, engine_of. simpl.
    destruct (graph_to _ _ _); [|discriminate].
    intros [= ->]. reflexivity. }
  pose proof (transition_rejected now orderStateTransitions inj c target w None w
                (IllegalTarget _ _ _ _ Hcan')) as (Hr & Ho & _).
  split; [exact Hr|]. split; [exact Ho|].
  pose proof (transition_heap now orderStateTransitions inj c target w) as Hheap.
  fold this in Hheap, Ho. fold w' in Hheap, Ho.
  revert Hcan. unfold OrderStateMachine.canTransition, OrderStateMachine.on_instance,
    FiniteStateMachine.canTransitionTo. simpl. rewrite Hheap, Ho.
  destruct (graph_to _ _ _); [|discriminate].
  intros [= ->]. reflexivity.
Qed.

(** X8: after a [transition] that returned, the order is in the target
    state and [getNextStates(order)] answers with what the graph holds as
    the destination list of the target: that list; [undefined], where the
    target, which a destination list may name without the graph having an
    entry for it, is a name the graph object inherits, such as
    [constructor]; and a [TypeError] where the graph has no property
    under the target's name. *)
Theorem transition_then_getNextStates {Ext RequestContext : Type}
    (now : Ext -> nat) (orderStateTransitions : loc)
    (inj : OrderStateMachine.Injected Ext RequestContext)
    (c : RequestContext) (target : string)
    (w w2 : OrderStateMachine.AdapterWorld Ext RequestContext) :
  let this := built now orderStateTransitions inj in
  OrderStateMachine.transition this c target w = Ok tt w2 ->
  OrderStateMachine.state (OrderStateMachine.order (FiniteStateMachine.user w2)) = target /\
  OrderStateMachine.getNextStates this w2 =
    match read_to (FiniteStateMachine.heap w) orderStateTransitions target with
    | ToArray dests => Ok (Some dests) w2
    | ToUndefined => Ok None w2
    | ToTypeError => Throw TypeError w2
    end.
Proof.
  intros this Hok.
  pose proof (transition_heap now orderStateTransitions inj c target w) as Hheap.
  fold this in Hheap. rewrite Hok in Hheap. simpl in Hheap.
  destruct (transition_returned now orderStateTransitions inj c target w w2 Hok)
    as (w1 & _ & _ & _ & _ & Hw2).
  assert (Hstate : OrderStateMachine.state
                     (OrderStateMachine.order (FiniteStateMachine.user w2)) = target).
  { rewrite Hw2. reflexivity. }
  split; [exact Hstate|].
  unfold OrderStateMachine.getNextStates, OrderStateMachine.on_instance,
    FiniteStateMachine.getNextStates. simpl. rewrite Hstate, Hheap.
  destruct (read_to _ _ _); reflexivity.
Qed.

(** X9: the machines the constructor builds over one base graph share
    that graph: in every world any two of them, whatever they were
    injected with, give the same answers to [canTransition] and
    [getNextStates]. *)
Theorem machines_share_the_graph {Ext RequestContext : Type}
    (now : Ext -> nat) (orderStateTransitions : loc)
    (inj1 inj2 : OrderStateMachine.Injected Ext RequestContext)
    (h1 h1' h2 h2' : Heap)
    (m1 m2 : OrderStateMachine.OrderStateMachine Ext RequestContext) :
  OrderStateMachine.new_OrderStateMachine now orderStateTransitions inj1 h1 = Ok m1 h1' ->
  OrderStateMachine.new_OrderStateMachine now orderStateTransitions inj2 h2 = Ok m2 h2' ->
  forall (w : OrderStateMachine.AdapterWorld Ext RequestContext)
         (currentState newState : string),
    OrderStateMachine.canTransition m1 currentState newState w
      = OrderStateMachine.canTransition m2 currentState newState w /\
    OrderStateMachine.getNextStates m1 w = OrderStateMachine.getNextStates m2 w.
Proof.
  intros H1 H2 w currentState newState.
  apply new_OrderStateMachine_built in H1, H2. subst m1 m2.
  unfold OrderStateMachine.canTransition, OrderStateMachine.getNextStates,
    OrderStateMachine.on_instance, FiniteStateMachine.canTransitionTo,
    FiniteStateMachine.getNextStates. simpl.
  split; [destruct (graph_to _ _ _) | destruct (read_to _ _ _)]; reflexivity.
Qed.

(** X10: every [transition] that returns, no promise of a hook having
    been dropped, has run the history service exactly once, as the last
    of the services: the entry it was handed carries the order's id, the
    request context, the state the order was in and the target, and what
    the history service left is what the transition ends in. *)
Theorem transition_records_one_history_entry {Ext RequestContext : Type}
    (now : Ext -> nat) (orderStateTransitions : loc)
    (inj : OrderStateMachine.Injected Ext RequestContext)
    (c : RequestContext) (target : string)
    (w w2 : OrderStateMachine.AdapterWorld Ext RequestContext) :
  OrderStateMachine.transition (built now orderStateTransitions inj) c target w = Ok tt w2 ->
  OrderStateMachine.floating (FiniteStateMachine.user w2) = [] ->
  let args :=
    {| OrderStateMachine.orderId :=
         OrderStateMachine.id (OrderStateMachine.order (FiniteStateMachine.user w2));
       OrderStateMachine.type := OrderStateMachine.ORDER_STATE_TRANSITION;
       OrderStateMachine.entry_ctx := c;
       OrderStateMachine.entry_from :=
         OrderStateMachine.state (OrderStateMachine.order (FiniteStateMachine.user w));
       OrderStateMachine.entry_to := target |} in
  filter (fun ev => is_createHistoryEntryForOrder ev) (since w w2) =
    [FiniteStateMachine.EvUser (OrderStateMachine.CreateHistoryEntryForOrder args)] /\
  exists e : Ext,
    OrderStateMachine.createHistoryEntryForOrder (OrderStateMachine.historyService inj)
      args e = Ok tt (OrderStateMachine.ext (FiniteStateMachine.user w2)).
Proof.
  intros Hok _ args.
  destruct (entrance_since now orderStateTransitions inj c target w w2 _
              (transition_entrance now orderStateTransitions inj c target w w2 Hok))
    as (gc & pre & s1 & s2 & mid & [Hpay Hnpay] & Hu & Hev & Hgc & Hpre).
  rewrite Hev.
  destruct (decide (is_payment_state target)) as [Hp|Hn].
  - destruct (Hpay Hp) as (o1 & e1 & o2 & e2 & e3 & _ & _ & H3 & -> & ->).
    assert (Hargs : history_entry (OrderStateMachine.id o2) c
                      (OrderStateMachine.state
                         (OrderStateMachine.order (FiniteStateMachine.user w))) target
                    = args).
    { unfold args. rewrite Hu. reflexivity. }
    rewrite Hargs in H3 |- *. split.
    + destruct Hgc as [->|[->| ->]], Hpre as [->|[->| ->]]; reflexivity.
    + exists e2. rewrite Hu. exact H3.
  - destruct (Hnpay Hn) as (e3 & H3 & -> & ->).
    match type of H3 with
    | OrderStateMachine.createHistoryEntryForOrder _ ?a _ = _ =>
        assert (Hargs : a = args) by (unfold args; rewrite Hu; reflexivity)
    end.
    rewrite Hargs in H3 |- *. split.
    + destruct Hgc as [->|[->| ->]], Hpre as [->|[->| ->]]; reflexivity.
    + exists (OrderStateMachine.ext s1). rewrite Hu. exact H3.
Qed.

(** X11: a [transition] that returns from a target other than
    [PaymentAuthorized] and [PaymentSettled], no promise of a hook having
    been dropped, has read no date and run neither the stock service nor
    the promotion service: after the hook chosen by the composed end hook
    the history service is the one thing that ran, and the order is as
    that hook left it, but for the [state] written and, when the target
    is [Cancelled], for being inactive. *)
Theorem transition_without_payment_effects {Ext RequestContext : Type}
    (now : Ext -> nat) (orderStateTransitions : loc)
    (inj : OrderStateMachine.Injected Ext RequestContext)
    (c : RequestContext) (target : string)
    (w w2 : OrderStateMachine.AdapterWorld Ext RequestContext) :
  OrderStateMachine.transition (built now orderStateTransitions inj) c target w = Ok tt w2 ->
  target <> "PaymentAuthorized" -> target <> "PaymentSettled" ->
  OrderStateMachine.floating (FiniteStateMachine.user w2) = [] ->
  entrance now orderStateTransitions inj c target w w2
    (history_only inj
       (OrderStateMachine.state (OrderStateMachine.order (FiniteStateMachine.user w)))
       target c) /\
  filter (fun ev => is_payment_effect ev) (since w w2) = [] /\
  (target = "Cancelled" ->
   OrderStateMachine.active (OrderStateMachine.order (FiniteStateMachine.user w2)) = false).
Proof.
  intros Hok Hn1 Hn2 _.
  assert (Hn : ~ is_payment_state target) by (intros [?|?]; contradiction).
  assert (He : entrance now orderStateTransitions inj c target w w2
                 (history_only inj
                    (OrderStateMachine.state
                       (OrderStateMachine.order (FiniteStateMachine.user w)))
                    target c)).
  { apply (entrance_impl now orderStateTransitions inj c target w w2
             (built_in_effects now inj
                (OrderStateMachine.state
                   (OrderStateMachine.order (FiniteStateMachine.user w)))
                target c)).
    - intros s s' mid [_ Hnpay]. exact (Hnpay Hn).
    - apply transition_entrance. exact Hok. }
  split; [exact He|].
  destruct (entrance_since now orderStateTransitions inj c target w w2 _ He)
    as (gc & pre & s1 & s2 & mid & (e3 & _ & -> & ->) & Hu & Hev & Hgc & Hpre).
  split.
  - rewrite Hev.
    destruct Hgc as [->|[->| ->]], Hpre as [->|[->| ->]]; reflexivity.
  - intros ->. rewrite Hu. simpl. reflexivity.
Qed.

(** X12: when the stock service fails on the entrance into a payment
    state, [transition] raises its exception: the engine has committed,
    the order was handed over inactive and with its placement date, the
    promotion service and the history service are not called, and the
    order's state is not written. *)
Theorem stock_failure_aborts_transition {Ext RequestContext : Type}
    (now : Ext -> nat) (orderStateTransitions : loc)
    (inj : OrderStateMachine.Injected Ext RequestContext)
    (c : RequestContext) (target : string)
    (w w1 : OrderStateMachine.AdapterWorld Ext RequestContext)
    (pre : list (OrderStateMachine.Call RequestContext))
    (s1 : OrderStateMachine.Store Ext)
    (e : Exn) (o2 : OrderStateMachine.Order) (e2 : Ext) :
  let this := built now orderStateTransitions inj in
  let fromState :=
    OrderStateMachine.state (OrderStateMachine.order (FiniteStateMachine.user w)) in
  let o' := OrderStateMachine.set_orderPlacedAt
              (Some (now (OrderStateMachine.ext s1)))
              (OrderStateMachine.set_active false (OrderStateMachine.order s1)) in
  target = "PaymentAuthorized" \/ target = "PaymentSettled" ->
  Proceeds (engine_of now orderStateTransitions inj w) w target
           {| OrderStateMachine.ctx := c |} w1 ->
  OrderStateMachine.chosen_onTransitionEnd inj fromState target
    {| OrderStateMachine.ctx := c |} ([], FiniteStateMachine.user w1) = Ok tt (pre, s1) ->
  OrderStateMachine.createSalesForOrder (OrderStateMachine.stockMovementService inj)
    (o', OrderStateMachine.ext s1) = Throw e (o2, e2) ->
  OrderStateMachine.transition this c target w =
    Throw e
      (after_callback w1
         [FiniteStateMachine.EvCommit fromState target;
          FiniteStateMachine.EvOnTransitionEnd fromState target target]
         (pre ++ [OrderStateMachine.NewDate (now (OrderStateMachine.ext s1));
                  OrderStateMachine.CreateSalesForOrder o'])
         {| OrderStateMachine.order := o2;
            OrderStateMachine.ext := e2;
            OrderStateMachine.floating := OrderStateMachine.floating s1 |}) /\
  FiniteStateMachine.currentState
    (fst (final (OrderStateMachine.attempt this c target w))) = target.
Proof.
  intros this fromState o' Hpay Hp Hchosen Hfail.
  assert (Hend : OrderStateMachine.config_onTransitionEnd now inj fromState target
                   {| OrderStateMachine.ctx := c |} ([], FiniteStateMachine.user w1)
                 = Throw e
                     (pre ++ [OrderStateMachine.NewDate (now (OrderStateMachine.ext s1));
                              OrderStateMachine.CreateSalesForOrder o'],
                      {| OrderStateMachine.order := o2;
                         OrderStateMachine.ext := e2;
                         OrderStateMachine.floating := OrderStateMachine.floating s1 |})).
  { unfold OrderStateMachine.config_onTransitionEnd, bind. rewrite Hchosen.
    apply onTransitionEnd_stock_failure; assumption. }
  pose proof (transitionTo_end_failure (engine_of now orderStateTransitions inj w) w w1
                target {| OrderStateMachine.ctx := c |}
                (OrderStateMachine.config_onTransitionEnd now inj) e _ _ Hp eq_refl Hend)
    as Ha.
  assert (Ha' : OrderStateMachine.attempt this c target w = _) by exact Ha.
  unfold OrderStateMachine.transition. rewrite Ha'. split; reflexivity.
Qed.

(** X14: the built-in rule has an opinion on entrances into
    [ArrangingPayment] only: when the consulted guard has none, the
    composed guard answers [undefined] for every other target, and for
    [ArrangingPayment] when the order has lines and a customer; this is so
    also when the consulted guard answered [true]. *)
Theorem composed_guard_passes {Ext RequestContext : Type}
    (inj : OrderStateMachine.Injected Ext RequestContext)
    (fromState toState : string)
    (data : OrderStateMachine.OrderTransitionData RequestContext)
    (cs cs1 : list (OrderStateMachine.Call RequestContext))
    (s s1 : OrderStateMachine.Store Ext) (v : Resolved) :
  ChosenGuard inj fromState toState data cs s v (cs1, s1) ->
  ~ vetoes v ->
  toState <> "ArrangingPayment" \/
  (OrderStateMachine.lines (OrderStateMachine.order s1) <> [] /\
   OrderStateMachine.customer (OrderStateMachine.order s1) <> None) ->
  OrderStateMachine.config_onTransitionStart inj fromState toState data (cs, s)
  = Ok RVoid (cs1, s1).
Proof.
  intros Hc Hnv Hcase.
  rewrite (config_onTransitionStart_after_chosen inj fromState toState data cs s v
             (cs1, s1) Hc).
  assert (Hb : @OrderStateMachine.onTransitionStart Ext RequestContext fromState toState
                 data (cs1, s1) = Ok RVoid (cs1, s1)).
  { unfold OrderStateMachine.onTransitionStart, bind, OrderStateMachine.the_order,
      gets, ret. simpl.
    destruct (decide (toState = "ArrangingPayment")) as [Ht|_]; [|reflexivity].
    destruct Hcase as [Hne|[Hl Hcu]]; [contradiction|].
    destruct (OrderStateMachine.lines (OrderStateMachine.order s1)); [contradiction|].
    simpl. destruct (OrderStateMachine.customer (OrderStateMachine.order s1));
      [reflexivity | contradiction]. }
  destruct v as [[|]|m|]; try exact Hb; exfalso; apply Hnv; unfold vetoes; eauto.
Qed.

(** X15: the merge writes only where it must. On graphs it can merge,
    which have no entry object in common: the override object and the
    destination lists of its entries are as they were, and a key of the
    base that the override does not have keeps its entry object and its
    destination list. *)
Theorem mergeTransitionDefinitions_frame (h : Heap) (base custom : loc)
    (bo co : JSObject loc) :
  graphs h !! base = Some bo ->
  graphs h !! custom = Some co ->
  mergeable h bo co ->
  disjoint bo co ->
  exists h',
    OrderStateMachine.mergeTransitionDefinitions base (Some custom) h = Ok base h' /\
    graphs h' !! custom = Some co /\
    (forall key ce, obj_get key co = Some ce -> entries h' !! ce = entries h !! ce) /\
    (forall key be, obj_get key co = None -> obj_get key bo = Some be ->
       graph_entry h' base key = Some be /\
       graph_to h' base key = graph_to h base key).
Proof.
  intros Hbase Hcustom Hmg Hdis.
  destruct (mergeTransitionDefinitions_merged h base custom bo co Hbase Hcustom Hmg)
    as (h' & Hrun & [Hc (bof & Hb & Hform) Happ Hunt Hpr]).
  exists h'. split; [exact Hrun|]. split; [exact Hc|]. split.
  - intros key ce Hce. apply Hunt. intros k _ Hk. exact (Hdis k key ce Hk Hce).
  - intros key be Hnone Hbe.
    assert (Hentry : obj_get key bof = Some be).
    { rewrite Hform, Hbe. reflexivity. }
    unfold graph_entry. rewrite Hb. split; [exact Hentry|].
    rewrite (graph_to_own h' base bof key be Hb Hentry).
    rewrite (graph_to_own h base bo key be Hbase Hbe).
    apply Hunt. intros k Hin Hk. apply seen_all in Hin.
    pose proof (unshared_key h bo co Hmg k key be Hin Hk (or_introl Hbe)) as ->.
    destruct (obj_get_keys key co (proj1 (list_elem_of_In _ _) Hin)) as [x Hx].
    congruence.
Qed.

(** X16: the constructor merges the transitions of the process options
    and no others: the transitions a strategy declares are never read. Two
    installations whose process options declare the same transitions leave
    the same heap behind, whatever their strategies declare. *)
Theorem constructor_ignores_strategy_transitions {Ext RequestContext : Type}
    (now : Ext -> nat) (orderStateTransitions : loc)
    (inj inj' : OrderStateMachine.Injected Ext RequestContext) (h : Heap) :
  OrderProcessStrategy.transitions
    (OrderStateMachine.process
       (OrderStateMachine.orderOptions (OrderStateMachine.configService inj)))
  = OrderProcessStrategy.transitions
      (OrderStateMachine.process
         (OrderStateMachine.orderOptions (OrderStateMachine.configService inj'))) ->
  final (OrderStateMachine.new_OrderStateMachine now orderStateTransitions inj h)
  = final (OrderStateMachine.new_OrderStateMachine now orderStateTransitions inj' h) /\
  returned (OrderStateMachine.new_OrderStateMachine now orderStateTransitions inj h)
  = returned (OrderStateMachine.new_OrderStateMachine now orderStateTransitions inj' h).
Proof.
  intros Heq.
  unfold OrderStateMachine.new_OrderStateMachine, OrderStateMachine.initConfig, bind.
  rewrite Heq.
  destruct (OrderStateMachine.mergeTransitionDefinitions _ _ h); split; reflexivity.
Qed.

(** X17: the merge never takes a transition away: on graphs it can
    merge, the destination list the merged graph holds for a state starts
    with the list the base held for it, in the same order. *)
Theorem mergeTransitionDefinitions_keeps_transitions (h : Heap) (base custom : loc)
    (bo co : JSObject loc) :
  graphs h !! base = Some bo ->
  graphs h !! custom = Some co ->
  mergeable h bo co ->
  exists h',
    OrderStateMachine.mergeTransitionDefinitions base (Some custom) h = Ok base h' /\
    forall key ys,
      graph_to h base key = Some ys ->
      exists zs, graph_to h' base key = Some (ys ++ zs).
Proof.
  intros Hbase Hcustom Hmg.
  destruct (mergeTransitionDefinitions_merged h base custom bo co Hbase Hcustom Hmg)
    as (h' & Hrun & Hinv).
  exists h'. split; [exact Hrun|].
  intros key ys Hys.
  pose proof (merged_entries_grow h base custom bo co Hmg h') as Hgrow.
  destruct Hinv as [Hc (bof & Hb & Hform) Happ Hunt Hpr].
  assert (Hinv : merged_upto h base custom bo co (rev (keys co) ++ []) h')
    by (split; eauto).
  revert Hys. unfold graph_to, read_to, get_property.
  rewrite Hbase, Hb, Hform, Hpr.
  destruct (obj_get key bo) as [be|] eqn:Hbe.
  - destruct (entries h !! be) as [l|] eqn:Hl; [|discriminate].
    intros [= <-]. destruct (Hgrow be l Hinv Hl) as (zs & ->). eauto.
  - assert (Hco : (if decide (key ∈ rev (keys co) ++ []) then obj_get key co else None)
                  = obj_get key co).
    { destruct (decide (key ∈ rev (keys co) ++ [])) as [|Hn]; [reflexivity|].
      destruct (obj_get key co) as [ce|] eqn:Hce; [|reflexivity].
      exfalso. apply Hn. apply seen_all, list_elem_of_In.
      eapply obj_get_In_keys; eauto. }
    rewrite Hco.
    destruct (protos h !! base) as [pe|]; simpl.
    + destruct (decide (key = "__proto__")) as [->|Hnp].
      * rewrite (mg_proto _ _ _ Hmg).
        destruct (entries h !! pe) as [l|] eqn:Hl; [|discriminate].
        intros [= <-]. destruct (Hgrow pe l Hinv Hl) as (zs & ->). eauto.
      * destruct (decide (key = "to")); [discriminate|].
        destruct (decide (key ∈ Object_prototype)); discriminate.
    + destruct (decide (key ∈ Object_prototype)); discriminate.
Qed.

(** X18: the transitions of the process options become legal: after the
    constructor ran on graphs it can merge, the machine it built answers
    [true] to [canTransition] from every key of the override to every
    state the override lists for it. *)
Theorem custom_transitions_become_legal {Ext RequestContext : Type}
    (now : Ext -> nat) (orderStateTransitions : loc)
    (inj : OrderStateMachine.Injected Ext RequestContext)
    (h : Heap) (custom : loc) (bo co : JSObject loc)
    (key : string) (ce : loc) (xs : list string) (target : string) :
  OrderProcessStrategy.transitions
    (OrderStateMachine.process
       (OrderStateMachine.orderOptions (OrderStateMachine.configService inj)))
  = Some custom ->
  graphs h !! orderStateTransitions = Some bo ->
  graphs h !! custom = Some co ->
  mergeable h bo co ->
  obj_get key co = Some ce -> entries h !! ce = Some xs -> In target xs ->
  exists this h',
    OrderStateMachine.new_OrderStateMachine now orderStateTransitions inj h = Ok this h' /\
    forall w : OrderStateMachine.AdapterWorld Ext RequestContext,
      FiniteStateMachine.heap w = h' ->
      OrderStateMachine.canTransition this key target w = Ok true w.
Proof.
  intros Htr Hbase Hcustom Hmg Hce Hxs Hin.
  destruct (mergeTransitionDefinitions_merged h orderStateTransitions custom bo co
              Hbase Hcustom Hmg) as (h' & Hrun & Hinv).
  exists (built now orderStateTransitions inj), h'. split.
  - unfold OrderStateMachine.new_OrderStateMachine, OrderStateMachine.initConfig, bind.
    rewrite Htr, Hrun. reflexivity.
  - intros w Hw.
    pose proof (merged_key h orderStateTransitions custom bo co Hmg h' key ce xs
                  Hinv Hce Hxs) as Hg.
    assert (Hdest : exists dests,
               graph_to h' orderStateTransitions key = Some dests /\ In target dests).
    { destruct (obj_get key bo) as [be|] eqn:Hbe.
      - destruct Hg as (ys & _ & Hg). exists (ys ++ xs). split; [exact Hg|].
        apply in_or_app. right. exact Hin.
      - destruct Hg as [_ Hg]. exists xs. split; [exact Hg | exact Hin]. }
    destruct Hdest as (dests & Hdests & Hind).
    unfold OrderStateMachine.canTransition, OrderStateMachine.on_instance,
      FiniteStateMachine.canTransitionTo. simpl. rewrite Hw, Hdests.
    rewrite (proj2 (indexOf_In target dests) Hind). reflexivity.
Qed.

(** ** The further properties at work on the sample installation *)

Lemma missing_entry_raises_witness :
  let w := Sample.world_of (Sample.order_in "Validating" [1%nat] (Some 3%nat)) in
  let this := engine_of Sample.clock Sample.base Sample.plain w in
  let w' := Sample.world_of (Sample.order_in "constructor" [1%nat] (Some 3%nat)) in
  let this' := engine_of Sample.clock Sample.base Sample.plain w' in
  (graph_to (FiniteStateMachine.heap w)
     (FiniteStateMachine.transitions (FiniteStateMachine.config this))
     (FiniteStateMachine._currentState this) = None /\
   FiniteStateMachine.transitionTo "ArrangingPayment" {| OrderStateMachine.ctx := tt |}
     (this, w) = Throw TypeError (this, w) /\
   FiniteStateMachine.getNextStates (this, w) = Throw TypeError (this, w)) /\
  (graph_to (FiniteStateMachine.heap w')
     (FiniteStateMachine.transitions (FiniteStateMachine.config this'))
     (FiniteStateMachine._currentState this') = None /\
   FiniteStateMachine.canTransitionTo "Cancelled" (this', w') = Throw TypeError (this', w') /\
   FiniteStateMachine.getNextStates (this', w') = Ok None (this', w')).
Proof.
  intros w this w' this'.
  assert (H : graph_to (FiniteStateMachine.heap w)
                (FiniteStateMachine.transitions (FiniteStateMachine.config this))
                (FiniteStateMachine._currentState this) = None)
    by (vm_compute; reflexivity).
  assert (H' : graph_to (FiniteStateMachine.heap w')
                 (FiniteStateMachine.transitions (FiniteStateMachine.config this'))
                 (FiniteStateMachine._currentState this') = None)
    by (vm_compute; reflexivity).
  split; (split; [assumption|]).
  - destruct (missing_entry_raises this w "ArrangingPayment"
                {| OrderStateMachine.ctx := tt |} H) as (_ & Ht & Hn).
    split; [exact Ht | exact Hn].
  - destruct (missing_entry_raises this' w' "Cancelled"
                {| OrderStateMachine.ctx := tt |} H') as (Hc & _ & Hn).
    split; [exact Hc | exact Hn].
Defined.

Lemma guard_failure_propagates_witness :
  let w := Sample.world_of Sample.filled in
  let this := engine_of Sample.clock Sample.base Sample.failing_guard w in
  FiniteStateMachine.transitionTo "ArrangingPayment" {| OrderStateMachine.ctx := tt |}
    (this, w) =
    Throw (ExternalError "guard failed")
      (this, Sample.after_guard Sample.filled "ArrangingPayment").
Proof.
  intros w this.
  apply (guard_failure_propagates this w "ArrangingPayment"
           {| OrderStateMachine.ctx := tt |}
           (OrderStateMachine.config_onTransitionStart Sample.failing_guard)).
  - vm_compute. reflexivity.
  - reflexivity.
  - vm_compute. reflexivity.
Defined.

Lemma Sample_stock_proceeds :
  let w := Sample.world_of (Sample.order_in "ArrangingPayment" [1%nat] (Some 3%nat)) in
  Proceeds (engine_of Sample.clock Sample.base Sample.failing_stock w) w
    "PaymentAuthorized" {| OrderStateMachine.ctx := tt |}
    (after_callback w
       [FiniteStateMachine.EvOnTransitionStart "ArrangingPayment" "PaymentAuthorized"]
       [] (FiniteStateMachine.user w)).
Proof.
  intros w. eapply GuardPassed with (verdict := RVoid).
  - vm_compute. reflexivity.
  - reflexivity.
  - vm_compute. reflexivity.
  - discriminate.
  - discriminate.
Defined.

Lemma end_failure_keeps_commit_witness :
  let w := Sample.world_of (Sample.order_in "ArrangingPayment" [1%nat] (Some 3%nat)) in
  let this := engine_of Sample.clock Sample.base Sample.failing_stock w in
  let r := FiniteStateMachine.transitionTo "PaymentAuthorized"
             {| OrderStateMachine.ctx := tt |} (this, w) in
  returned r = false /\
  FiniteStateMachine.currentState (fst (final r)) = "PaymentAuthorized".
Proof.
  intros w this r.
  destruct (end_failure_keeps_commit this w _ "PaymentAuthorized"
              {| OrderStateMachine.ctx := tt |}
              (OrderStateMachine.config_onTransitionEnd Sample.clock Sample.failing_stock)
              (ExternalError "out of stock")
              [OrderStateMachine.NewDate 0;
               OrderStateMachine.CreateSalesForOrder
                 (OrderStateMachine.set_orderPlacedAt (Some 0%nat)
                    (OrderStateMachine.set_active false
                       (Sample.order_in "ArrangingPayment" [1%nat] (Some 3%nat))))]
              {| OrderStateMachine.order :=
                   OrderStateMachine.set_orderPlacedAt (Some 0%nat)
                     (OrderStateMachine.set_active false
                        (Sample.order_in "ArrangingPayment" [1%nat] (Some 3%nat)));
                 OrderStateMachine.ext := [];
                 OrderStateMachine.floating := [] |}
              Sample_stock_proceeds eq_refl)
    as [Heq Hcur].
  - vm_compute. reflexivity.
  - split; [|exact Hcur]. exact (f_equal returned Heq).
Defined.

Lemma transition_raises_IllegalOperationError_witness :
  let w := Sample.world_of Sample.filled in
  let w1 := Sample.after_guard Sample.filled "ArrangingPayment" in
  OrderStateMachine.transition (Sample.machine Sample.vetoing) tt "ArrangingPayment" w =
    Throw (IllegalOperationError "error.not-today" "AddingItems" "ArrangingPayment")
      (after_callback w1
         [FiniteStateMachine.EvOnError "AddingItems" "ArrangingPayment"
            (Some "error.not-today")]
         [] (FiniteStateMachine.user w1)).
Proof.
  intros w w1.
  refine (proj1 (transition_raises_IllegalOperationError Sample.clock Sample.base
                   Sample.vetoing tt "ArrangingPayment" w w1 (Some "error.not-today")
                   [] (FiniteStateMachine.user w1) Sample_vetoed _)).
  apply NoErrorHook; reflexivity.
Defined.

Lemma illegal_target_stays_illegal_witness :
  let this := Sample.machine Sample.plain in
  let w := Sample.world_of Sample.filled in
  let w' := final (OrderStateMachine.transition this tt "PaymentSettled" w) in
  OrderStateMachine.canTransition this "AddingItems" "PaymentSettled" w = Ok false w /\
  OrderStateMachine.canTransition this
    (OrderStateMachine.state (OrderStateMachine.order (FiniteStateMachine.user w')))
    "PaymentSettled" w' = Ok false w'.
Proof.
  intros this w w'.
  assert (H : OrderStateMachine.canTransition this "AddingItems" "PaymentSettled" w
              = Ok false w) by (vm_compute; reflexivity).
  split; [exact H|].
  exact (proj2 (proj2 (illegal_target_stays_illegal Sample.clock Sample.base Sample.plain
                         tt "PaymentSettled" w H))).
Defined.

Lemma Sample_cancelled :
  let this := Sample.machine Sample.plain in
  let w := Sample.world_of Sample.filled in
  OrderStateMachine.transition this tt "Cancelled" w
  = Ok tt (final (OrderStateMachine.transition this tt "Cancelled" w)).
Proof. vm_compute. reflexivity. Defined.

Lemma transition_then_getNextStates_witness :
  let this := Sample.machine Sample.plain in
  let w := Sample.world_of Sample.filled in
  let w2 := final (OrderStateMachine.transition this tt "Cancelled" w) in
  OrderStateMachine.transition this tt "Cancelled" w = Ok tt w2 /\
  OrderStateMachine.getNextStates this w2 = Ok (Some []) w2.
Proof.
  intros this w w2. split; [exact Sample_cancelled|].
  exact (proj2 (transition_then_getNextStates Sample.clock Sample.base Sample.plain tt
                  "Cancelled" w w2 Sample_cancelled)).
Defined.

Lemma machines_share_the_graph_witness :
  let build1 := OrderStateMachine.new_OrderStateMachine Sample.clock Sample.base
                  Sample.plain Sample.extended_heap in
  let build2 := OrderStateMachine.new_OrderStateMachine Sample.clock Sample.base
                  Sample.extending (final build1) in
  exists m1 m2,
    build1 = Ok m1 (final build1) /\ build2 = Ok m2 (final build2) /\
    forall w,
      OrderStateMachine.canTransition m1 "AddingItems" "Validating" w
      = OrderStateMachine.canTransition m2 "AddingItems" "Validating" w.
Proof.
  intros build1 build2.
  exists (built Sample.clock Sample.base Sample.plain),
         (built Sample.clock Sample.base Sample.extending).
  assert (H1 : build1 = Ok (built Sample.clock Sample.base Sample.plain) (final build1))
    by (vm_compute; reflexivity).
  assert (H2 : build2 = Ok (built Sample.clock Sample.base Sample.extending) (final build2))
    by (vm_compute; reflexivity).
  split; [exact H1|]. split; [exact H2|].
  intros w.
  exact (proj1 (machines_share_the_graph Sample.clock Sample.base Sample.plain
                  Sample.extending _ _ _ _ _ _ H1 H2 w "AddingItems" "Validating")).
Defined.

Lemma transition_records_one_history_entry_witness :
  let this := Sample.machine Sample.plain in
  let w := Sample.world_of Sample.filled in
  let w2 := final (OrderStateMachine.transition this tt "Cancelled" w) in
  let args :=
    {| OrderStateMachine.orderId :=
         OrderStateMachine.id (OrderStateMachine.order (FiniteStateMachine.user w2));
       OrderStateMachine.type := OrderStateMachine.ORDER_STATE_TRANSITION;
       OrderStateMachine.entry_ctx := tt;
       OrderStateMachine.entry_from := "AddingItems";
       OrderStateMachine.entry_to := "Cancelled" |} in
  OrderStateMachine.transition this tt "Cancelled" w = Ok tt w2 /\
  OrderStateMachine.floating (FiniteStateMachine.user w2) = [] /\
  filter (fun ev => is_createHistoryEntryForOrder ev) (since w w2) =
    [FiniteStateMachine.EvUser (OrderStateMachine.CreateHistoryEntryForOrder args)] /\
  (exists e : Sample.Journal,
      OrderStateMachine.createHistoryEntryForOrder Sample.histories args e
      = Ok tt (OrderStateMachine.ext (FiniteStateMachine.user w2))) /\
  OrderStateMachine.ext (FiniteStateMachine.user w2) = ["createHistoryEntryForOrder"].
Proof.
  intros this w w2 args. split; [exact Sample_cancelled|]. split; [reflexivity|].
  destruct (transition_records_one_history_entry Sample.clock Sample.base Sample.plain tt
              "Cancelled" w w2 Sample_cancelled eq_refl) as [Hlog Hrun].
  split; [exact Hlog|]. split; [exact Hrun|]. reflexivity.
Defined.

Lemma transition_without_payment_effects_witness :
  let this := Sample.machine Sample.plain in
  let w := Sample.world_of Sample.filled in
  let w2 := final (OrderStateMachine.transition this tt "Cancelled" w) in
  OrderStateMachine.transition this tt "Cancelled" w = Ok tt w2 /\
  OrderStateMachine.floating (FiniteStateMachine.user w2) = [] /\
  entrance Sample.clock Sample.base Sample.plain tt "Cancelled" w w2
    (history_only Sample.plain "AddingItems" "Cancelled" tt) /\
  filter (fun ev => is_payment_effect ev) (since w w2) = [] /\
  OrderStateMachine.active (OrderStateMachine.order (FiniteStateMachine.user w2)) = false /\
  OrderStateMachine.ext (FiniteStateMachine.user w2) = ["createHistoryEntryForOrder"].
Proof.
  intros this w w2. split; [exact Sample_cancelled|]. split; [reflexivity|].
  destruct (transition_without_payment_effects Sample.clock Sample.base Sample.plain tt
              "Cancelled" w w2 Sample_cancelled) as (Hrun & Hnone & Hinactive);
    [discriminate | discriminate | reflexivity |].
  split; [exact Hrun|]. split; [exact Hnone|]. split; [exact (Hinactive eq_refl)|].
  reflexivity.
Defined.

Lemma stock_failure_aborts_transition_witness :
  let w := Sample.world_of (Sample.order_in "ArrangingPayment" [1%nat] (Some 3%nat)) in
  let r := OrderStateMachine.transition (Sample.machine Sample.failing_stock) tt
             "PaymentAuthorized" w in
  returned r = false /\
  OrderStateMachine.state (OrderStateMachine.order (FiniteStateMachine.user (final r)))
    = "ArrangingPayment" /\
  OrderStateMachine.active (OrderStateMachine.order (FiniteStateMachine.user (final r)))
    = false /\
  FiniteStateMachine.currentState
    (fst (final (OrderStateMachine.attempt (Sample.machine Sample.failing_stock) tt
                   "PaymentAuthorized" w))) = "PaymentAuthorized".
Proof.
  intros w r.
  destruct (stock_failure_aborts_transition Sample.clock Sample.base Sample.failing_stock
              tt "PaymentAuthorized" w _ [] (FiniteStateMachine.user w)
              (ExternalError "out of stock")
              (OrderStateMachine.set_orderPlacedAt (Some 0%nat)
                 (OrderStateMachine.set_active false
                    (Sample.order_in "ArrangingPayment" [1%nat] (Some 3%nat))))
              [] (or_introl eq_refl) Sample_stock_proceeds)
    as [Heq Hcur].
  - vm_compute. reflexivity.
  - vm_compute. reflexivity.
  - split; [exact (f_equal returned Heq)|].
    split; [exact (f_equal (fun x => OrderStateMachine.state (OrderStateMachine.order
                                       (FiniteStateMachine.user (final x)))) Heq)|].
    split; [exact (f_equal (fun x => OrderStateMachine.active (OrderStateMachine.order
                                       (FiniteStateMachine.user (final x)))) Heq)|].
    exact Hcur.
Defined.

Lemma composed_guard_passes_witness :
  let s := FiniteStateMachine.user (Sample.world_of Sample.filled) in
  let cs1 := [OrderStateMachine.StrategyOnTransitionStart "AddingItems" "ArrangingPayment"] in
  OrderStateMachine.config_onTransitionStart Sample.approving "AddingItems"
    "ArrangingPayment" {| OrderStateMachine.ctx := tt |} ([], s)
  = Ok RVoid (cs1, Sample.guarded Sample.filled).
Proof.
  intros s cs1.
  apply (composed_guard_passes Sample.approving "AddingItems" "ArrangingPayment"
           {| OrderStateMachine.ctx := tt |} [] cs1 s (Sample.guarded Sample.filled)
           (RBool true)).
  - eapply (StrategyGuard Sample.approving _ _ _ [] s _ (RBool true)
              Sample.filled ["guard"]).
    + reflexivity.
    + vm_compute. reflexivity.
  - intros [Hv|[m Hv]]; discriminate.
  - right. split; discriminate.
Defined.

Lemma Sample_two_graphs_disjoint : disjoint [("S", 10%nat)] [("S", 20%nat)].
Proof.
  intros k1 k2 e H1 H2. simpl in H1, H2.
  destruct (decide ("S" = k1)), (decide ("S" = k2)); try discriminate.
  injection H1 as <-. discriminate.
Defined.

Lemma mergeTransitionDefinitions_frame_witness :
  exists h',
    OrderStateMachine.mergeTransitionDefinitions 0%nat (Some 1%nat) Sample.two_graphs
      = Ok 0%nat h' /\
    graph_to h' 1%nat "S" = Some ["X"].
Proof.
  destruct (mergeTransitionDefinitions_frame Sample.two_graphs 0%nat 1%nat
              [("S", 10%nat)] [("S", 20%nat)] eq_refl eq_refl
              Sample_two_graphs_mergeable Sample_two_graphs_disjoint)
    as (h' & Hrun & Hc & Hlists & _).
  exists h'. split; [exact Hrun|].
  rewrite (graph_to_own h' 1%nat _ "S" 20%nat Hc eq_refl).
  rewrite (Hlists "S" 20%nat eq_refl). reflexivity.
Defined.

Lemma constructor_ignores_strategy_transitions_witness :
  final (OrderStateMachine.new_OrderStateMachine Sample.clock Sample.base
           Sample.strategy_with_transitions Sample.extended_heap)
  = final (OrderStateMachine.new_OrderStateMachine Sample.clock Sample.base
             Sample.plain Sample.extended_heap).
Proof.
  exact (proj1 (constructor_ignores_strategy_transitions Sample.clock Sample.base
                  Sample.strategy_with_transitions Sample.plain Sample.extended_heap
                  eq_refl)).
Defined.

Lemma mergeTransitionDefinitions_keeps_transitions_witness :
  exists h',
    OrderStateMachine.mergeTransitionDefinitions 0%nat (Some 1%nat) Sample.two_graphs
      = Ok 0%nat h' /\
    exists zs, graph_to h' 0%nat "S" = Some (["Y"] ++ zs).
Proof.
  destruct (mergeTransitionDefinitions_keeps_transitions Sample.two_graphs 0%nat 1%nat
              [("S", 10%nat)] [("S", 20%nat)] eq_refl eq_refl Sample_two_graphs_mergeable)
    as (h' & Hrun & Hkeep).
  exists h'. split; [exact Hrun|].
  apply Hkeep. vm_compute. reflexivity.
Defined.

(** The sample base graph and the graph of [Sample.custom] can be
    merged. *)
Lemma Sample_extended_mergeable :
  mergeable Sample.extended_heap
    [("AddingItems", 10%nat); ("ArrangingPayment", 11%nat);
     ("PaymentAuthorized", 12%nat); ("PaymentSettled", 13%nat); ("Cancelled", 14%nat)]
    [("AddingItems", 20%nat); ("Validating", 21%nat)].
Proof.
  split.
  - apply (bool_decide_unpack _). vm_compute. exact I.
  - intros k e H. simpl in H. repeat case_decide; simplify_eq; vm_compute; eauto.
  - intros k e H. simpl in H. repeat case_decide; simplify_eq; vm_compute; eauto.
  - intros k' k e Hne H1 [x H2]. simpl in H1, H2 |- *.
    repeat case_decide; simplify_eq; split; discriminate.
  - split; reflexivity.
  - reflexivity.
Defined.

Lemma custom_transitions_become_legal_witness :
  exists this h',
    OrderStateMachine.new_OrderStateMachine Sample.clock Sample.base Sample.extending
      Sample.extended_heap = Ok this h' /\
    forall w : OrderStateMachine.AdapterWorld Sample.Journal unit,
      FiniteStateMachine.heap w = h' ->
      OrderStateMachine.canTransition this "AddingItems" "Validating" w = Ok true w.
Proof.
  refine (custom_transitions_become_legal Sample.clock Sample.base Sample.extending
            Sample.extended_heap Sample.custom _ _ "AddingItems" 20%nat ["Validating"]
            "Validating" eq_refl _ _ Sample_extended_mergeable eq_refl _ _).
  - vm_compute. reflexivity.
  - vm_compute. reflexivity.
  - vm_compute. reflexivity.
  - left. reflexivity.
Defined.
